(** * Skip-marker resolution, marker aggregation and scrobbling of tVLCplayer

    A shallow embedding of the logic in
    - [src/components/VideoPlayer.tsx]    (active-marker resolution effect,
      auto-skip countdown effect, [handleSkip]),
    - [src/services/communitySkipService.ts] (provider adapters, merge,
      24h cache),
    - the [useTrakt] hook (scrobble sequencing).

    JavaScript numbers that hold seconds or percentages are modelled as
    rationals [Q] (exact arithmetic; the constants 10, 5, 2, 80 and 100 are
    the source's), [Date.now()] milliseconds as [Z].  React state is a record;
    an effect is a function from the record to the setter call it makes. *)

From stdpp Require Import gmap strings list fin_maps pretty.
From Stdlib Require Import QArith Qabs Qround Lqa.

Open Scope Q_scope.

(** ** Shared types ([src/types/index.ts]) *)

Inductive SkipType := intro | credits | recap | preview.

Inductive Source := chapter | fingerprint | manual.

Record SkipMarker := mkSkipMarker {
  type : SkipType;
  startTime : Q;
  endTime : Q;
  source : Source
}.

Record SkipSettings := mkSkipSettings {
  enabledChapterSkip : bool;
  enabledAudioSkip : bool;
  enabledCommunitySkip : bool;
  enabledManualSkip : bool;
  autoSkipEnabled : bool;
  skipFadeTimeMs : Q;
  globalIntroSkipSeconds : Q;
  globalCreditsSkipSeconds : Q
}.

Definition SkipType_eqb (a b : SkipType) : bool :=
  match a, b with
  | intro, intro | credits, credits | recap, recap | preview, preview => true
  | _, _ => false
  end.

(** JavaScript [x < y] and [x >= y] on numbers. *)
Definition Qltb (x y : Q) : bool := negb (Qle_bool y x).
Definition Qgeb (x y : Q) : bool := Qle_bool y x.

(** ** The video player component ([src/components/VideoPlayer.tsx]) *)

Module VideoPlayer.

(** The playback primitive returned by [useVideoPlayer]. *)
Record Player := mkPlayer {
  currentTime : Q;
  playerDuration : Q;
  playbackRate : Q;
  playing : bool;
  (** ghost: every value assigned to [player.currentTime], latest first *)
  seeks : list Q
}.

(** What the callback installed by [setInterval] in the countdown effect
    closes over: its local [countdown] and the [handleSkip] of the render in
    which the effect ran, which in turn closes over that render's
    [activeSkipMarker]. *)
Record IntervalClosure := mkIntervalClosure {
  countdown : Z;
  capturedMarker : option SkipMarker
}.

(** Props, state and refs of the component that the skip logic touches. *)
Record Component := mkComponent {
  skipSettings : SkipSettings;
  communitySkipMarkers : list SkipMarker;
  manualIntroSkip : Q;
  manualCreditsSkip : Q;
  currentPosition : Q;
  duration : Q;
  activeSkipMarker : option SkipMarker;
  autoSkipCountdown : option Z;
  autoSkipInterval : option IntervalClosure;
  player : Player
}.

Definition setActiveSkipMarker (m : option SkipMarker) (c : Component) : Component :=
  mkComponent (skipSettings c) (communitySkipMarkers c) (manualIntroSkip c)
    (manualCreditsSkip c) (currentPosition c) (duration c) m
    (autoSkipCountdown c) (autoSkipInterval c) (player c).

Definition setAutoSkipCountdown (n : option Z) (c : Component) : Component :=
  mkComponent (skipSettings c) (communitySkipMarkers c) (manualIntroSkip c)
    (manualCreditsSkip c) (currentPosition c) (duration c) (activeSkipMarker c)
    n (autoSkipInterval c) (player c).

Definition setAutoSkipInterval (i : option IntervalClosure) (c : Component) : Component :=
  mkComponent (skipSettings c) (communitySkipMarkers c) (manualIntroSkip c)
    (manualCreditsSkip c) (currentPosition c) (duration c) (activeSkipMarker c)
    (autoSkipCountdown c) i (player c).

Definition setPlayerCurrentTime (t : Q) (c : Component) : Component :=
  mkComponent (skipSettings c) (communitySkipMarkers c) (manualIntroSkip c)
    (manualCreditsSkip c) (currentPosition c) (duration c) (activeSkipMarker c)
    (autoSkipCountdown c) (autoSkipInterval c)
    (mkPlayer t (playerDuration (player c)) (playbackRate (player c))
       (playing (player c)) (t :: seeks (player c))).

(** *** Active-marker resolution effect (lines 174-224) *)

(** The call the effect makes on [setActiveSkipMarker], if any. *)
Inductive Update :=
| NoUpdate
| SetActiveSkipMarker (m : option SkipMarker).

(** The [for (const marker of communitySkipMarkers)] loop: the marker passed
    to [setActiveSkipMarker] before the early [return], if the loop returns. *)
Fixpoint communityLoop (position : Q) (markers : list SkipMarker) : option SkipMarker :=
  match markers with
  | [] => None
  | marker :: rest =>
      if SkipType_eqb (type marker) intro
         && Qgeb position (startTime marker)
         && Qltb position (endTime marker)
      then Some marker
      else if SkipType_eqb (type marker) credits
              && Qgeb position (startTime marker - 10)
              && Qltb position (endTime marker)
      then Some marker
      else communityLoop position rest
  end.

(** [activeSkipMarker?.type === t] *)
Definition activeTypeIs (t : SkipType) (m : option SkipMarker) : bool :=
  match m with
  | Some a => SkipType_eqb (type a) t
  | None => false
  end.

Definition manualFallback (c : Component) : Update :=
  let position := currentPosition c in
  if negb (enabledManualSkip (skipSettings c)) then SetActiveSkipMarker None
  else if Qltb 0 (manualIntroSkip c) && Qltb position (manualIntroSkip c) then
    SetActiveSkipMarker
      (Some (mkSkipMarker intro 0 (manualIntroSkip c) manual))
  else if Qltb 0 (manualCreditsSkip c) && Qltb 0 (duration c) then
    let creditsStart := duration c - manualCreditsSkip c in
    if Qgeb position (creditsStart - 10) && Qltb position (duration c - 5) then
      SetActiveSkipMarker
        (Some (mkSkipMarker credits creditsStart (duration c) manual))
    else if activeTypeIs credits (activeSkipMarker c) then
      SetActiveSkipMarker None
    else NoUpdate
  else if activeTypeIs intro (activeSkipMarker c) then SetActiveSkipMarker None
  else NoUpdate.

Definition resolveUpdate (c : Component) : Update :=
  if Qeq_bool (duration c) 0 then SetActiveSkipMarker None
  else
    let position := currentPosition c in
    let hit :=
      if enabledCommunitySkip (skipSettings c)
         && (0 <? length (communitySkipMarkers c))%nat
      then communityLoop position (communitySkipMarkers c)
      else None in
    match hit with
    | Some marker => SetActiveSkipMarker (Some marker)
    | None => manualFallback c
    end.

Definition applyUpdate (u : Update) (c : Component) : Component :=
  match u with
  | NoUpdate => c
  | SetActiveSkipMarker m => setActiveSkipMarker m c
  end.

(** One run of the resolution effect. *)
Definition resolve (c : Component) : Component := applyUpdate (resolveUpdate c) c.

(** *** [handleSkip] (lines 254-259) *)

(** [handleSkip] as created by a render whose [activeSkipMarker] was
    [captured].  The [player] returned by [useVideoPlayer] is always an
    object, so the [&& player] conjunct is true. *)
Definition handleSkipOf (captured : option SkipMarker) (c : Component) : Component :=
  match captured with
  | Some marker => setActiveSkipMarker None (setPlayerCurrentTime (endTime marker) c)
  | None => c
  end.

(** The [handleSkip] of the current render, as passed to [SkipButton.onSkip]. *)
Definition handleSkip (c : Component) : Component :=
  handleSkipOf (activeSkipMarker c) c.

(** *** Auto-skip countdown effect (lines 226-252) *)

(** The effect's cleanup: [clearInterval(autoSkipInterval.current)]. *)
Definition countdownCleanup (c : Component) : Component :=
  setAutoSkipInterval None c.

(** The effect's body. *)
Definition countdownBody (c : Component) : Component :=
  match activeSkipMarker c with
  | Some _ =>
      if autoSkipEnabled (skipSettings c) then
        let countdown := 3%Z in
        setAutoSkipInterval
          (Some (mkIntervalClosure countdown (activeSkipMarker c)))
          (setAutoSkipCountdown (Some countdown) c)
      else setAutoSkipCountdown None c
  | None => setAutoSkipCountdown None c
  end.

(** A re-run of the effect after one of its dependencies
    [activeSkipMarker], [skipSettings.autoSkipEnabled] changed. *)
Definition countdownEffect (c : Component) : Component :=
  countdownBody (countdownCleanup c).

(** One firing of the 1000 ms interval callback, when an interval is live. *)
Definition intervalTick (c : Component) : Component :=
  match autoSkipInterval c with
  | None => c
  | Some cl =>
      let countdown := (countdown cl - 1)%Z in
      if (countdown <=? 0)%Z then
        setAutoSkipInterval None
          (setAutoSkipCountdown None (handleSkipOf (capturedMarker cl) c))
      else
        setAutoSkipCountdown (Some countdown)
          (setAutoSkipInterval
             (Some (mkIntervalClosure countdown (capturedMarker cl))) c)
  end.

(** [n] consecutive firings of the interval with no other event between. *)
Fixpoint intervalTicks (n : nat) (c : Component) : Component :=
  match n with
  | O => c
  | S k => intervalTicks k (intervalTick c)
  end.

End VideoPlayer.

(** ** Exceptions

    A computation that may throw (a rejected promise, once awaited).  The
    thrown value is only ever logged by the source, so it is not kept. *)

Inductive Exc (A : Type) :=
| Return (a : A)
| Throw.
Arguments Return {A} a.
Arguments Throw {A}.

Definition bindExc {A B} (m : Exc A) (k : A -> Exc B) : Exc B :=
  match m with
  | Return a => k a
  | Throw => Throw
  end.

(** [try { body } catch (error) { handler }] *)
Definition tryCatch {A} (body : Exc A) (handler : Exc A) : Exc A :=
  match body with
  | Return a => Return a
  | Throw => handler
  end.

#[global] Instance Exc_ret : MRet Exc := fun A a => Return a.
#[global] Instance Exc_bind : MBind Exc := fun A B k m => bindExc m k.

(** ** The community skip service ([src/services/communitySkipService.ts]) *)

Module CommunitySkipService.

(** [{ start, end }]; a field missing from the JSON reads [undefined]. *)
Record Segment := mkSegment {
  seg_start : option Q;
  seg_end : option Q
}.

(** [IntroHaterResponse | StremioSkipResponse]; [s] and [e] exist only in the
    second and are never read. *)
Record ProviderData := mkProviderData {
  data_intro : option Segment;
  data_outro : option Segment;
  data_s : option Q;
  data_e : option Q
}.

(** What a provider request does: [fetch] rejects (network failure, timeout),
    or resolves to a response with its [ok] flag and the outcome of
    [response.json()] ([None]: the body is no JSON, [json()] rejects). *)
Inductive Fetch :=
| Rejects
| Responds (ok : bool) (json : option ProviderData).

Inductive Provider := IntroHater | Stremio.

Record Service := mkService {
  cache : gmap string (list SkipMarker);
  lastFetchTime : gmap string Z
}.

Definition cacheTTL : Z := 24 * 60 * 60 * 1000.

(** [s.padStart(n, "0")] *)
Definition padStart0 (n : nat) (s : string) : string :=
  String.append (String.concat "" (replicate (n - String.length s) "0"%string)) s.

(** [`${imdbId}_s${String(season).padStart(2, "0")}e${String(episode).padStart(2, "0")}`] *)
Definition episodeKey (imdbId : string) (season episode : N) : string :=
  String.append imdbId
    (String.append "_s"
       (String.append (padStart0 2 (pretty season))
          (String.append "e" (padStart0 2 (pretty episode))))).

Definition convertToSkipMarkers (data : ProviderData) : list SkipMarker :=
  let markers := [] in
  let markers :=
    match data_intro data with
    | Some (mkSegment (Some s) (Some e)) =>
        markers ++ [mkSkipMarker intro s e fingerprint]
    | _ => markers
    end in
  let markers :=
    match data_outro data with
    | Some (mkSegment (Some s) (Some e)) =>
        markers ++ [mkSkipMarker credits s e fingerprint]
    | _ => markers
    end in
  markers.

Definition awaitFetch (f : Fetch) : Exc (bool * option ProviderData) :=
  match f with
  | Rejects => Throw
  | Responds ok json => Return (ok, json)
  end.

Definition awaitJson (json : option ProviderData) : Exc ProviderData :=
  match json with
  | Some data => Return data
  | None => Throw
  end.

(** Body shared by [getIntroHaterMarkers] and [getStremioSkipMarkers]; they
    differ in the URL only. *)
Definition getProviderMarkers (f : Fetch) : Exc (list SkipMarker) :=
  tryCatch
    (response ← awaitFetch f;
     if negb (fst response) then Return []
     else
       data ← awaitJson (snd response);
       Return (convertToSkipMarkers data))
    (Return []).

Definition getIntroHaterMarkers : Fetch -> Exc (list SkipMarker) := getProviderMarkers.
Definition getStremioSkipMarkers : Fetch -> Exc (list SkipMarker) := getProviderMarkers.

(** [allMarkers.some(m => m.type === marker.type &&
                        Math.abs(m.startTime - marker.startTime) < 2)] *)
Definition exists_ (allMarkers : list SkipMarker) (marker : SkipMarker) : bool :=
  existsb
    (fun m => SkipType_eqb (type m) (type marker)
              && Qltb (Qabs (startTime m - startTime marker)) 2)
    allMarkers.

(** [const allMarkers = [...introHaterMarkers]; for (const marker of
    stremioMarkers) { if (!exists) allMarkers.push(marker) }] *)
Definition mergeMarkers (introHaterMarkers stremioMarkers : list SkipMarker)
  : list SkipMarker :=
  fold_left
    (fun allMarkers marker =>
       if negb (exists_ allMarkers marker) then allMarkers ++ [marker]
       else allMarkers)
    stremioMarkers introHaterMarkers.

(** [cached && lastFetch && Date.now() - lastFetch < this.cacheTTL]: an array
    is always truthy, a number is truthy unless it is 0. *)
Definition cacheHit (cached : option (list SkipMarker)) (lastFetch : option Z)
    (now : Z) : option (list SkipMarker) :=
  match cached, lastFetch with
  | Some markers, Some t =>
      if negb (t =? 0)%Z && (now - t <? cacheTTL)%Z then Some markers else None
  | _, _ => None
  end.

(** The result of one call: what the returned promise settles to, the
    service afterwards, and the provider requests issued. *)
Record Outcome := mkOutcome {
  settled : Exc (list SkipMarker);
  service : Service;
  requests : list Provider
}.

(** [getSkipMarkersForEpisode].  [now] is [Date.now()] at the cache check,
    [now'] is [Date.now()] at the cache write; [introHater] and [stremio]
    are what the two providers do if asked. *)
Definition getSkipMarkersForEpisode (imdbId : string) (season episode : N)
    (now : Z) (introHater stremio : Fetch) (now' : Z) (svc : Service) : Outcome :=
  let cacheKey := episodeKey imdbId season episode in
  let lastFetch := lastFetchTime svc !! cacheKey in
  let cached := cache svc !! cacheKey in
  match cacheHit cached lastFetch now with
  | Some markers => mkOutcome (Return markers) svc []
  | None =>
      let body :=
        introHaterMarkers ← getIntroHaterMarkers introHater;
        stremioMarkers ← getStremioSkipMarkers stremio;
        let allMarkers := mergeMarkers introHaterMarkers stremioMarkers in
        Return (allMarkers,
                mkService (<[cacheKey := allMarkers]> (cache svc))
                          (<[cacheKey := now']> (lastFetchTime svc))) in
      match tryCatch body (Return ([], svc)) with
      | Return (markers, svc') => mkOutcome (Return markers) svc' [IntroHater; Stremio]
      | Throw => mkOutcome Throw svc [IntroHater; Stremio]
      end
  end.


End CommunitySkipService.

(** ** The scrobble hook ([useTrakt]) *)

Module UseTrakt.

Inductive ScrobbleAction := start | pause | stop.

(** A call [traktService.scrobble(action, data)]; of [data] only the
    progress matters here. *)
Record Call := mkCall {
  action : ScrobbleAction;
  progress : Q
}.

(** The hook's refs. *)
Record Refs := mkRefs {
  lastProgress : Q;
  hasScrobbledStart : bool;
  hasScrobbled80 : bool;
  isPlaying : bool
}.

Definition initialRefs : Refs := mkRefs 0 false false false.

(** [createScrobbleData(...).progress = Math.min(100, Math.max(0, progress))] *)
Definition Qmaxjs (x y : Q) : Q := if Qltb x y then y else x.
Definition Qminjs (x y : Q) : Q := if Qltb y x then y else x.
Definition createScrobbleData (progress : Q) : Q := Qminjs 100 (Qmaxjs 0 progress).

Definition resetScrobbleState (r : Refs) : Refs * list Call :=
  (mkRefs 0 false false (isPlaying r), []).

(** [token]: [settings.trakt.accessToken] is truthy; [success]: what
    [traktService.scrobbleStart] resolves to. *)
Definition scrobbleStart (token success : bool) (r : Refs) : Refs * list Call :=
  if negb token then (r, [])
  else if hasScrobbledStart r then (r, [])
  else
    let data := createScrobbleData 0 in
    (if success
     then mkRefs (lastProgress r) true (hasScrobbled80 r) true
     else r,
     [mkCall start data]).

Definition scrobblePause (token : bool) (progress : Q) (r : Refs) : Refs * list Call :=
  if negb token then (r, [])
  else if negb (isPlaying r) then (r, [])
  else
    let data := createScrobbleData progress in
    (mkRefs (lastProgress r) (hasScrobbledStart r) (hasScrobbled80 r) false,
     [mkCall pause data]).

Definition scrobbleStop (token : bool) (progress : Q) (r : Refs) : Refs * list Call :=
  if negb token then (r, [])
  else
    let data := createScrobbleData progress in
    (mkRefs (lastProgress r) (hasScrobbledStart r) (hasScrobbled80 r) false,
     [mkCall stop data]).

Definition updateProgress (token : bool) (currentTime duration : Q) (r : Refs)
  : Refs * list Call :=
  if negb token || Qeq_bool duration 0 then (r, [])
  else
    let progress := (currentTime / duration) * 100 in
    let r := mkRefs progress (hasScrobbledStart r) (hasScrobbled80 r) (isPlaying r) in
    if Qgeb progress 80 && negb (hasScrobbled80 r) then
      let r := mkRefs (lastProgress r) (hasScrobbledStart r) true (isPlaying r) in
      let data := createScrobbleData progress in
      (r, [mkCall stop data])
    else (r, []).

Definition onPlay (token success : bool) (r : Refs) : Refs * list Call :=
  if negb (hasScrobbledStart r) then scrobbleStart token success r
  else if negb (isPlaying r) then
    let data := createScrobbleData (lastProgress r) in
    (mkRefs (lastProgress r) (hasScrobbledStart r) (hasScrobbled80 r) true,
     [mkCall start data])
  else (r, []).

Definition onPause (token : bool) (r : Refs) : Refs * list Call :=
  scrobblePause token (lastProgress r) r.

Definition onStop (token : bool) (r : Refs) : Refs * list Call :=
  let '(r1, calls1) := scrobbleStop token (lastProgress r) r in
  let '(r2, calls2) := resetScrobbleState r1 in
  (r2, calls1 ++ calls2).

(** The operations a playback session performs on the hook. *)
Inductive Op :=
| ScrobbleStart (success : bool)
| ScrobblePause (progress : Q)
| ScrobbleStop (progress : Q)
| UpdateProgress (currentTime duration : Q)
| OnPlay (success : bool)
| OnPause
| OnStop
| ResetScrobbleState.

Definition step (token : bool) (op : Op) (r : Refs) : Refs * list Call :=
  match op with
  | ScrobbleStart success => scrobbleStart token success r
  | ScrobblePause p => scrobblePause token p r
  | ScrobbleStop p => scrobbleStop token p r
  | UpdateProgress t d => updateProgress token t d r
  | OnPlay success => onPlay token success r
  | OnPause => onPause token r
  | OnStop => onStop token r
  | ResetScrobbleState => resetScrobbleState r
  end.

(** A session: the operations in order, each with the calls it made. *)
Fixpoint run (token : bool) (ops : list Op) (r : Refs) : Refs * list (Op * list Call) :=
  match ops with
  | [] => (r, [])
  | op :: rest =>
      let '(r1, calls) := step token op r in
      let '(r2, trace) := run token rest r1 in
      (r2, (op, calls) :: trace)
  end.

(** The calls made by [updateProgress] in a session: the completion reports. *)
Definition reportsOf (e : Op * list Call) : list Call :=
  match fst e with
  | UpdateProgress _ _ => snd e
  | _ => []
  end.

Definition completionReports (trace : list (Op * list Call)) : list Call :=
  concat (map reportsOf trace).

(** The operations that reset the session state: [resetScrobbleState]
    itself and [onStop], which calls it. *)
Definition resets (op : Op) : bool :=
  match op with
  | OnStop | ResetScrobbleState => true
  | _ => false
  end.

End UseTrakt.

(** ** Vocabulary of the statements *)

(** The activation window of a community marker at position [p], as the
    specification words it: half-open, with a 10 second lead for credits;
    recap and preview markers have none. *)
Definition activationWindow (m : SkipMarker) (p : Q) : Prop :=
  match type m with
  | intro => startTime m <= p /\ p < endTime m
  | credits => startTime m - 10 <= p /\ p < endTime m
  | recap | preview => False
  end.

(** The manual fallback conditions, as the specification words them. *)
Definition manualIntroCondition (c : VideoPlayer.Component) : Prop :=
  0 < VideoPlayer.manualIntroSkip c
  /\ VideoPlayer.currentPosition c < VideoPlayer.manualIntroSkip c.

Definition manualCreditsCondition (c : VideoPlayer.Component) : Prop :=
  0 < VideoPlayer.manualCreditsSkip c
  /\ VideoPlayer.duration c - VideoPlayer.manualCreditsSkip c - 10
       <= VideoPlayer.currentPosition c
  /\ VideoPlayer.currentPosition c < VideoPlayer.duration c - 5.

(** A provider error: the request times out or fails on the network
    ([fetch] rejects), the status is not 2xx, or the body is not JSON. *)
Definition providerError (f : CommunitySkipService.Fetch) : Prop :=
  match f with
  | CommunitySkipService.Rejects => True
  | CommunitySkipService.Responds ok json => ok = false \/ json = None
  end.

(** "A kept marker of the same type starts within 2 seconds of [marker]". *)
Definition covered (kept : list SkipMarker) (marker : SkipMarker) : Prop :=
  exists k, In k kept
            /\ type k = type marker
            /\ Qabs (startTime k - startTime marker) < 2.

(** The two decimal digits of a number below 100, as text. *)
Definition twoDigits (z : Z) : string :=
  String (Stdlib.Strings.Ascii.ascii_of_nat (48 + Z.to_nat (z / 10)))
    (String (Stdlib.Strings.Ascii.ascii_of_nat (48 + Z.to_nat (z mod 10)))
       EmptyString).

(** ** Concrete inputs *)

Definition c1_marker_a : SkipMarker := mkSkipMarker credits 1100 1200 fingerprint.
Definition c1_marker_b : SkipMarker := mkSkipMarker intro 10 80 fingerprint.
Definition c1_marker_c : SkipMarker := mkSkipMarker intro 0 90 fingerprint.

(** Position 30 of a 1200 s video: the credits marker is out of its window,
    both intro markers are in theirs, and the manual intro fallback (90 s)
    would apply as well. *)
Definition c1_component : VideoPlayer.Component :=
  VideoPlayer.mkComponent
    (mkSkipSettings true true true true false 500 90 60)
    [c1_marker_a; c1_marker_b; c1_marker_c] 90 60 30 1200 None None None
    (VideoPlayer.mkPlayer 30 1200 1 true []).



(** The manual scenario: a 1200 s video, manual skip on, community skip off,
    no community markers, 90 s of manual intro; the position, the manual
    credits seconds and the previously active marker vary. *)
Definition c3_at (position manualCredits : Q) (active : option SkipMarker)
  : VideoPlayer.Component :=
  VideoPlayer.mkComponent
    (mkSkipSettings true true false true false 500 90 manualCredits)
    [] 90 manualCredits position 1200 active None None
    (VideoPlayer.mkPlayer position 1200 1 true []).

(** A community intro marker is active, auto-skip is on, nothing is counting. *)
Definition c8_component : VideoPlayer.Component :=
  VideoPlayer.mkComponent
    (mkSkipSettings true true true true true 500 0 0)
    [c1_marker_b] 0 0 12 1200 (Some c1_marker_b) None None
    (VideoPlayer.mkPlayer 12 1200 (3 # 2) true []).

(** Two providers reporting the same intro 1.5 s apart, and 2.5 s apart. *)
Definition c5_first : SkipMarker := mkSkipMarker intro 30 90 fingerprint.
Definition c5_near : SkipMarker := mkSkipMarker intro (63 # 2) 91 fingerprint.
Definition c5_far : SkipMarker := mkSkipMarker intro (65 # 2) 91 fingerprint.

(** A service holding one entry for episode tt0903747 s01e02, fetched at
    1700000000000 ms, and what the two providers answer when asked. *)
Definition c6_service : CommunitySkipService.Service :=
  CommunitySkipService.mkService
    {[ "tt0903747_s01e02"%string := [c5_first] ]}
    {[ "tt0903747_s01e02"%string := 1700000000000%Z ]}.

Definition c6_introHater : CommunitySkipService.Fetch :=
  CommunitySkipService.Responds true
    (Some (CommunitySkipService.mkProviderData
             (Some (CommunitySkipService.mkSegment (Some 31) (Some 92)))
             None None None)).

Definition c6_stremio : CommunitySkipService.Fetch :=
  CommunitySkipService.Responds true
    (Some (CommunitySkipService.mkProviderData
             (Some (CommunitySkipService.mkSegment (Some 32) (Some 93)))
             (Some (CommunitySkipService.mkSegment (Some 1100) (Some 1200)))
             (Some 1) (Some 2))).

(** A progress update whose [position / duration * 100] is at least 80. *)
Definition reaches80 (op : UseTrakt.Op) : Prop :=
  match op with
  | UseTrakt.UpdateProgress t d => ~ d == 0 /\ 80 <= t / d * 100
  | _ => False
  end.

(** A session of the 80 % scenario: play, progress samples of a 1200 s
    video, a pause, a stop call. *)
Definition c9_session : list UseTrakt.Op :=
  [UseTrakt.OnPlay true; UseTrakt.UpdateProgress 600 1200;
   UseTrakt.UpdateProgress 959 1200].

Definition c9_rest : list UseTrakt.Op :=
  [UseTrakt.UpdateProgress 1100 1200; UseTrakt.OnPause;
   UseTrakt.UpdateProgress 30 1200; UseTrakt.ScrobbleStop 95;
   UseTrakt.UpdateProgress 1190 1200; UseTrakt.ScrobbleStop 99].

(** ** Further code of the player ([src/components/VideoPlayer.tsx]) *)

(** [Math.max(x, y)], [Math.min(x, y)], [Math.round(x)] (ties go up) and the
    remainder [a % b] (sign of the dividend) on numbers. *)
Definition Math_max (x y : Q) : Q := if Qltb x y then y else x.
Definition Math_min (x y : Q) : Q := if Qltb y x then y else x.
Definition Math_round (x : Q) : Z := Qfloor (x + (1 # 2)).
Definition Math_trunc (x : Q) : Z := if Qltb x 0 then Qceiling x else Qfloor x.
Definition jsRem (a b : Q) : Q := a - b * inject_Z (Math_trunc (a / b)).

Module Controls.
Import VideoPlayer.

(** *** [formatTime] (lines 36-44) *)

Definition formatTime_hrs (seconds : Q) : Z := Qfloor (seconds / 3600).
Definition formatTime_mins (seconds : Q) : Z := Qfloor (jsRem seconds 3600 / 60).
Definition formatTime_secs (seconds : Q) : Z := Qfloor (jsRem seconds 60).

Definition formatTime (seconds : Q) : string :=
  let hrs := formatTime_hrs seconds in
  let mins := formatTime_mins seconds in
  let secs := formatTime_secs seconds in
  if (0 <? hrs)%Z then
    String.append (pretty hrs)
      (String.append ":"
         (String.append (CommunitySkipService.padStart0 2 (pretty mins))
            (String.append ":" (CommunitySkipService.padStart0 2 (pretty secs)))))
  else
    String.append (pretty mins)
      (String.append ":" (CommunitySkipService.padStart0 2 (pretty secs))).

(** *** Speed slider (lines 79-105) *)

Definition MIN_SPEED : Q := 1 # 4.
Definition NORMAL_SPEED : Q := 1.
Definition MAX_SPEED : Q := 3.

Definition speedToSliderValue (speed : Q) : Q :=
  if Qle_bool speed NORMAL_SPEED then
    ((speed - MIN_SPEED) / (NORMAL_SPEED - MIN_SPEED)) * 50
  else
    50 + ((speed - NORMAL_SPEED) / (MAX_SPEED - NORMAL_SPEED)) * 50.

Definition sliderValueToSpeed (value : Q) : Q :=
  let speed :=
    if Qle_bool value 50 then
      MIN_SPEED + (value / 50) * (NORMAL_SPEED - MIN_SPEED)
    else
      NORMAL_SPEED + ((value - 50) / 50) * (MAX_SPEED - NORMAL_SPEED) in
  inject_Z (Math_round (speed * 20)) / 20.

(** *** Audio and subtitle delay slider (lines 107-133) *)

Definition MIN_DELAY : Q := -5000.
Definition NORMAL_DELAY : Q := 0.
Definition MAX_DELAY : Q := 5000.

Definition delayToSliderValue (delay : Q) : Q :=
  if Qle_bool delay NORMAL_DELAY then
    ((delay - MIN_DELAY) / (NORMAL_DELAY - MIN_DELAY)) * 50
  else
    50 + ((delay - NORMAL_DELAY) / (MAX_DELAY - NORMAL_DELAY)) * 50.

Definition sliderValueToDelay (value : Q) : Q :=
  let delay :=
    if Qle_bool value 50 then
      MIN_DELAY + (value / 50) * (NORMAL_DELAY - MIN_DELAY)
    else
      NORMAL_DELAY + ((value - 50) / 50) * (MAX_DELAY - NORMAL_DELAY) in
  inject_Z (Math_round (delay / 50)) * 50.

(** *** The position sampler (lines 163-172) *)

(** [setCurrentPosition(player.currentTime); setDuration(player.duration || 0)];
    the [onProgress] callback is the caller's. *)
Definition samplePosition (c : Component) : Component :=
  mkComponent (skipSettings c) (communitySkipMarkers c) (manualIntroSkip c)
    (manualCreditsSkip c) (currentTime (player c))
    (if Qeq_bool (playerDuration (player c)) 0 then 0
     else playerDuration (player c))
    (activeSkipMarker c) (autoSkipCountdown c) (autoSkipInterval c) (player c).

(** *** The controls overlay and the progress slider *)

(** The state of the component that the seek controls use besides the
    fields of [Component]: [controlsVisible] (line 58), the shared value
    [controlsOpacity] (its animation's target), the hide timer kept in the
    ref [hideControlsTimeout] (a pending 4 s timer, with the [isPlaying]
    that its callback closed over; none once it has fired, when clearing
    the id left in the ref has no effect), the four menu flags,
    [isPlaying], and the
    slider's [isDraggingProgress], [previewTime] and [previewPosition]
    (lines 73-75). *)
Record Overlay := mkOverlay {
  controlsVisible : bool;
  controlsOpacity : Q;
  hideControlsTimeout : option bool;
  showSpeedSlider : bool;
  showAudioDelay : bool;
  showSubtitleDelay : bool;
  showTrackSelection : bool;
  isPlaying : bool;
  isDraggingProgress : bool;
  previewTime : Q;
  previewPosition : Q
}.

Record Screen := mkScreen {
  component : Component;
  overlay : Overlay
}.

(** [showControls] (lines 261-280): the controls become visible, the fade
    runs to 1, a pending hide timer is cleared and a new one is armed. *)
Definition showControls (o : Overlay) : Overlay :=
  mkOverlay true 1 (Some (isPlaying o))
    (showSpeedSlider o) (showAudioDelay o) (showSubtitleDelay o)
    (showTrackSelection o) (isPlaying o) (isDraggingProgress o)
    (previewTime o) (previewPosition o).

(** The callback of the hide timer (lines 269-279), 4 s after it was armed:
    [if (isPlaying)] the menus close and the controls fade out. *)
Definition hideTimerFires (o : Overlay) : Overlay :=
  match hideControlsTimeout o with
  | None => o
  | Some wasPlaying =>
      if wasPlaying then
        mkOverlay false 0 None false false false false
          (isPlaying o) (isDraggingProgress o) (previewTime o)
          (previewPosition o)
      else
        mkOverlay (controlsVisible o) (controlsOpacity o) None
          (showSpeedSlider o) (showAudioDelay o) (showSubtitleDelay o)
          (showTrackSelection o) (isPlaying o) (isDraggingProgress o)
          (previewTime o) (previewPosition o)
  end.

(** [seekRelative] (lines 293-298):
    [player.currentTime = Math.max(0, Math.min(duration, player.currentTime +
    seconds)); showControls()]. *)
Definition seekRelative (seconds : Q) (s : Screen) : Screen :=
  let c := component s in
  mkScreen
    (setPlayerCurrentTime
       (Math_max 0 (Math_min (duration c) (currentTime (player c) + seconds)))
       c)
    (showControls (overlay s)).

(** [handleProgressSliderStart] (lines 422-424). *)
Definition handleProgressSliderStart (s : Screen) : Screen :=
  let o := overlay s in
  mkScreen (component s)
    (mkOverlay (controlsVisible o) (controlsOpacity o) (hideControlsTimeout o)
       (showSpeedSlider o) (showAudioDelay o) (showSubtitleDelay o)
       (showTrackSelection o) (isPlaying o) true
       (previewTime o) (previewPosition o)).

(** [handleProgressChange] (lines 412-420): the preview follows the slider;
    the player is sought only while a drag is in progress. *)
Definition handleProgressChange (value : Q) (s : Screen) : Screen :=
  let c := component s in
  let o := overlay s in
  if Qeq_bool (duration c) 0 then s
  else
    let newTime := (value / 100) * duration c in
    let o' :=
      mkOverlay (controlsVisible o) (controlsOpacity o) (hideControlsTimeout o)
        (showSpeedSlider o) (showAudioDelay o) (showSubtitleDelay o)
        (showTrackSelection o) (isPlaying o) (isDraggingProgress o)
        newTime value in
    if isDraggingProgress o then
      mkScreen
        (setPlayerCurrentTime (Math_max 0 (Math_min (duration c) newTime)) c)
        o'
    else mkScreen c o'.

(** [handleProgressSliderEnd] (lines 426-429). *)
Definition handleProgressSliderEnd (s : Screen) : Screen :=
  let o := overlay s in
  mkScreen (component s)
    (showControls
       (mkOverlay (controlsVisible o) (controlsOpacity o)
          (hideControlsTimeout o) (showSpeedSlider o) (showAudioDelay o)
          (showSubtitleDelay o) (showTrackSelection o) (isPlaying o) false
          (previewTime o) (previewPosition o))).

End Controls.

(** A sampled component in the middle of a 1200 s video. *)
Definition x_component : VideoPlayer.Component :=
  VideoPlayer.mkComponent
    (mkSkipSettings true true true true false 500 0 0)
    [c1_marker_b] 0 0 600 1200 None None None
    (VideoPlayer.mkPlayer 600 1200 1 true []).

(** The same component while playing, controls faded out, the speed menu
    left open, no drag in progress. *)
Definition x_screen : Controls.Screen :=
  Controls.mkScreen x_component
    (Controls.mkOverlay false 0 None true false false false true false 0 0).

(** What a provider answers when it knows one intro from [start] to [end_]. *)
Definition c5_answer (start end_ : Q) : CommunitySkipService.Fetch :=
  CommunitySkipService.Responds true
    (Some (CommunitySkipService.mkProviderData
             (Some (CommunitySkipService.mkSegment (Some start) (Some end_)))
             None None None)).

(** Default settings with auto-skip switched on, one community credits
    marker from 1100 to 1150 of a 1200 s video, no manual seconds; the
    position was last sampled at 1095, inside the marker's lead, and the
    marker is active. *)
Definition c8_credits : SkipMarker := mkSkipMarker credits 1100 1150 fingerprint.

Definition c8_credits_component : VideoPlayer.Component :=
  VideoPlayer.mkComponent
    (mkSkipSettings true true true true true 500 0 0)
    [c8_credits] 0 0 1095 1200 (Some c8_credits) None None
    (VideoPlayer.mkPlayer 1095 1200 1 true []).

(** ** The clock overlay ([TimeDisplay], rendered by the player) *)

Module TimeDisplay.

(** [formatTime(date)], on [date.getHours()] and [date.getMinutes()]. *)
Definition ampm (hours : N) : string :=
  if (12 <=? hours)%N then "PM"%string else "AM"%string.

Definition hours12 (hours : N) : N :=
  let hours := (hours mod 12)%N in
  if (hours =? 0)%N then 12%N else hours.

Definition formatTime (hours minutes : N) : string :=
  let minutesStr := CommunitySkipService.padStart0 2 (pretty minutes) in
  String.append (pretty (hours12 hours))
    (String.append ":"
       (String.append minutesStr (String.append " " (ampm hours)))).

(** The argument of [new Date(...)] for the "Ends at" clock:
    [currentTime.getTime() + adjustedRemaining * 1000]. *)
Definition endTimeMs (now currentPosition duration playbackSpeed : Q) : Q :=
  let remainingSeconds := Math_max 0 (duration - currentPosition) in
  let adjustedRemaining := remainingSeconds / playbackSpeed in
  now + adjustedRemaining * 1000.

End TimeDisplay.

(** ** The Trakt client ([traktService.ts]) *)

Module TraktService.

Record TraktCredentials := mkTraktCredentials {
  accessToken : option string;
  refreshToken : option string;
  expiresAt : option Z;
  username : option string
}.

(** The fields of the token response that the client reads. *)
Record TokenResponse := mkTokenResponse {
  access_token : string;
  refresh_token : string;
  expires_in : Z;
  created_at : Z
}.

(** What an HTTP request does: [fetch] rejects, or resolves with its [ok]
    flag and the outcome of [response.json()]. *)
Inductive Http (A : Type) :=
| NetRejects
| NetResponds (ok : bool) (json : option A).
Arguments NetRejects {A}.
Arguments NetResponds {A} ok json.

Inductive Request :=
| RefreshRequest (refresh_token : string)
| ScrobbleRequest (action : UseTrakt.ScrobbleAction)
    (authorization : option string) (progress : Q).

(** Truthiness of a [string | null] and of a [number | null]. *)
Definition truthyString (s : option string) : option string :=
  match s with
  | Some EmptyString => None
  | Some t => Some t
  | None => None
  end.

Definition truthyNumber (n : option Z) : option Z :=
  match n with
  | Some 0%Z => None
  | Some z => Some z
  | None => None
  end.

(** The result of a client call: the boolean it resolves to, the
    credentials held afterwards and the requests sent, in order. *)
Record Result := mkResult {
  value : bool;
  credentials : option TraktCredentials;
  sent : list Request
}.

(** [refreshAccessToken]; [saveTraktCredentials] catches its own errors. *)
Definition refreshAccessToken (creds : option TraktCredentials)
    (refresh : Http TokenResponse) : Result :=
  match creds with
  | None => mkResult false creds []
  | Some c =>
      match truthyString (refreshToken c) with
      | None => mkResult false creds []
      | Some token =>
          match refresh with
          | NetRejects => mkResult false creds [RefreshRequest token]
          | NetResponds false _ => mkResult false creds [RefreshRequest token]
          | NetResponds true None => mkResult false creds [RefreshRequest token]
          | NetResponds true (Some tokenData) =>
              let newCredentials :=
                mkTraktCredentials
                  (Some (access_token tokenData))
                  (Some (refresh_token tokenData))
                  (Some ((created_at tokenData + expires_in tokenData) * 1000)%Z)
                  (username c) in
              mkResult true (Some newCredentials) [RefreshRequest token]
          end
      end
  end.

(** [ensureValidToken], at [Date.now() = now]. *)
Definition ensureValidToken (creds : option TraktCredentials) (now : Z)
    (refresh : Http TokenResponse) : Result :=
  match creds with
  | None => mkResult false creds []
  | Some c =>
      match truthyString (accessToken c) with
      | None => mkResult false creds []
      | Some _ =>
          match truthyNumber (expiresAt c) with
          | Some e =>
              if (e - 60000 <=? now)%Z then refreshAccessToken creds refresh
              else mkResult true creds []
          | None => mkResult true creds []
          end
      end
  end.

(** The [Authorization] header of [getHeaders()]. *)
Definition authorization (creds : option TraktCredentials) : option string :=
  match creds with
  | Some c => truthyString (accessToken c)
  | None => None
  end.

(** [scrobble(action, data)]; [post] is what the scrobble request does. *)
Definition scrobble (action : UseTrakt.ScrobbleAction) (progress : Q)
    (creds : option TraktCredentials) (now : Z)
    (refresh : Http TokenResponse) (post : Http unit) : Result :=
  let valid := ensureValidToken creds now refresh in
  if negb (value valid) then mkResult false (credentials valid) (sent valid)
  else
    let request :=
      ScrobbleRequest action (authorization (credentials valid)) progress in
    match post with
    | NetRejects =>
        mkResult false (credentials valid) (sent valid ++ [request])
    | NetResponds ok _ =>
        mkResult ok (credentials valid) (sent valid ++ [request])
    end.

End TraktService.

(** Credentials that expire at 1700000060000 ms, and a token response. *)
Definition x_credentials : TraktService.TraktCredentials :=
  TraktService.mkTraktCredentials (Some "old-access"%string)
    (Some "old-refresh"%string) (Some 1700000060000%Z) (Some "viewer"%string).

Definition x_tokenResponse : TraktService.TokenResponse :=
  TraktService.mkTokenResponse "new-access" "new-refresh" 7776000 1700000030.

(** * Properties *)

(** ** Comparisons *)

Lemma Qltb_lt (x y : Q) : Qltb x y = true <-> x < y.
Proof.
  unfold Qltb. rewrite negb_true_iff. split.
  - intros H. apply Qnot_le_lt. intros Hle.
    apply Qle_bool_iff in Hle. congruence.
  - intros H. destruct (Qle_bool y x) eqn:E; [|reflexivity].
    apply Qle_bool_iff in E. lra.
Qed.

Lemma Qltb_ge (x y : Q) : Qltb x y = false <-> y <= x.
Proof.
  unfold Qltb. rewrite negb_false_iff. apply Qle_bool_iff.
Qed.

Lemma Qgeb_ge (x y : Q) : Qgeb x y = true <-> y <= x.
Proof. apply Qle_bool_iff. Qed.

Lemma Qgeb_lt (x y : Q) : Qgeb x y = false <-> x < y.
Proof.
  unfold Qgeb. split.
  - intros H. apply Qnot_le_lt. intros Hle.
    apply Qle_bool_iff in Hle. congruence.
  - intros H. destruct (Qle_bool y x) eqn:E; [|reflexivity].
    apply Qle_bool_iff in E. lra.
Qed.

Lemma SkipType_eqb_eq (a b : SkipType) : SkipType_eqb a b = true <-> a = b.
Proof. destruct a, b; simpl; split; congruence. Qed.

(** ** The resolution effect *)

Section Resolution.
Import VideoPlayer.

(** The two tests of the community loop decide the activation window. *)
Lemma communityLoop_head (p : Q) (m : SkipMarker) (rest : list SkipMarker) :
  (activationWindow m p -> communityLoop p (m :: rest) = Some m)
  /\ (~ activationWindow m p -> communityLoop p (m :: rest) = communityLoop p rest).
Proof.
  unfold activationWindow. simpl.
  destruct (type m); simpl.
  - destruct (Qgeb p (startTime m)) eqn:E1; simpl.
    + destruct (Qltb p (endTime m)) eqn:E2; simpl.
      * split; [reflexivity|].
        intros H. exfalso. apply H.
        apply Qgeb_ge in E1. apply Qltb_lt in E2. split; assumption.
      * apply Qltb_ge in E2. split; [|reflexivity]. intros [_ H]. lra.
    + apply Qgeb_lt in E1. split; [|reflexivity]. intros [H _]. lra.
  - destruct (Qgeb p (startTime m - 10)) eqn:E1; simpl.
    + destruct (Qltb p (endTime m)) eqn:E2; simpl.
      * split; [reflexivity|].
        intros H. exfalso. apply H.
        apply Qgeb_ge in E1. apply Qltb_lt in E2. split; assumption.
      * apply Qltb_ge in E2. split; [|reflexivity]. intros [_ H]. lra.
    + apply Qgeb_lt in E1. split; [|reflexivity]. intros [H _]. lra.
  - split; [intros []|reflexivity].
  - split; [intros []|reflexivity].
Qed.

Lemma activationWindow_dec (m : SkipMarker) (p : Q) :
  activationWindow m p \/ ~ activationWindow m p.
Proof.
  unfold activationWindow. destruct (type m).
  - destruct (Qlt_le_dec p (startTime m)); [right; lra|].
    destruct (Qlt_le_dec p (endTime m)); [left; lra | right; lra].
  - destruct (Qlt_le_dec p (startTime m - 10)); [right; lra|].
    destruct (Qlt_le_dec p (endTime m)); [left; lra | right; lra].
  - right; tauto.
  - right; tauto.
Qed.

(** The loop returns the first marker of the list whose window holds [p]. *)
Lemma communityLoop_Some (p : Q) (markers : list SkipMarker) (m : SkipMarker) :
  communityLoop p markers = Some m <->
  exists before after,
    markers = before ++ m :: after
    /\ Forall (fun m' => ~ activationWindow m' p) before
    /\ activationWindow m p.
Proof.
  induction markers as [|a rest IH].
  - simpl. split; [discriminate|].
    intros (before & after & H & _). destruct before; discriminate.
  - destruct (communityLoop_head p a rest) as [Hin Hout].
    destruct (activationWindow_dec a p) as [Ha|Ha].
    + rewrite (Hin Ha). split.
      * intros [= <-]. exists [], rest. repeat split; [constructor|assumption].
      * intros (before & after & Heq & Hall & Hm).
        destruct before as [|b before]; simpl in Heq.
        -- congruence.
        -- injection Heq as <- _. inversion Hall; subst. contradiction.
    + rewrite (Hout Ha), IH. split.
      * intros (before & after & -> & Hall & Hm).
        exists (a :: before), after. repeat split; [constructor|]; assumption.
      * intros (before & after & Heq & Hall & Hm).
        destruct before as [|b before]; simpl in Heq.
        -- injection Heq as -> _. contradiction.
        -- injection Heq as <- ->. inversion Hall; subst.
           exists before, after. repeat split; assumption.
Qed.

Lemma communityLoop_None (p : Q) (markers : list SkipMarker) :
  communityLoop p markers = None <->
  Forall (fun m' => ~ activationWindow m' p) markers.
Proof.
  induction markers as [|a rest IH].
  - simpl. split; [constructor|reflexivity].
  - destruct (communityLoop_head p a rest) as [Hin Hout].
    destruct (activationWindow_dec a p) as [Ha|Ha].
    + rewrite (Hin Ha). split; [discriminate|].
      intros H. inversion H; subst. contradiction.
    + rewrite (Hout Ha), IH. split.
      * intros H. constructor; assumption.
      * intros H. inversion H; assumption.
Qed.

End Resolution.

Section Priority.
Import VideoPlayer.

Lemma duration_nonzero (c : Component) :
  0 < duration c -> Qeq_bool (duration c) 0 = false.
Proof.
  intros H. destruct (Qeq_bool (duration c) 0) eqn:E; [|reflexivity].
  apply Qeq_bool_iff in E. lra.
Qed.

Lemma nonempty_length (A : Type) (l : list A) (x : A) :
  In x l -> (0 <? length l)%nat = true.
Proof. destruct l; simpl; [intros []|reflexivity]. Qed.

(** C1. On a tick with a loaded video ([duration > 0]) and community skip
    enabled, if some community marker's activation window contains the
    current position, the resolution selects the first such marker in list
    order: the effect calls [setActiveSkipMarker] with it and it is the
    active marker afterwards.  This holds whatever the manual fallback
    seconds, the manual toggle and the previously active marker are, so a
    manual fallback that would also apply is never consulted; the selected
    marker is an element of the community list and carries its source. *)
Theorem community_marker_has_priority (c : Component) :
  0 < duration c ->
  enabledCommunitySkip (skipSettings c) = true ->
  (exists m, In m (communitySkipMarkers c)
             /\ activationWindow m (currentPosition c)) ->
  exists before m after,
    communitySkipMarkers c = before ++ m :: after
    /\ Forall (fun m' => ~ activationWindow m' (currentPosition c)) before
    /\ activationWindow m (currentPosition c)
    /\ resolveUpdate c = SetActiveSkipMarker (Some m)
    /\ activeSkipMarker (resolve c) = Some m
    /\ ((forall m', In m' (communitySkipMarkers c) -> source m' <> manual) ->
        source m <> manual).
Proof.
  intros Hd Hen (m0 & Hin & Hw).
  destruct (communityLoop (currentPosition c) (communitySkipMarkers c))
    as [m|] eqn:Hloop.
  - pose proof Hloop as Hfirst.
    apply communityLoop_Some in Hfirst.
    destruct Hfirst as (before & after & Heq & Hall & Hm).
    exists before, m, after.
    assert (Hupd : resolveUpdate c = SetActiveSkipMarker (Some m)).
    { unfold resolveUpdate.
      rewrite (duration_nonzero c Hd), Hen, (nonempty_length _ _ _ Hin).
      simpl. rewrite Hloop. reflexivity. }
    repeat split; try assumption.
    + unfold resolve. rewrite Hupd. reflexivity.
    + intros Hsrc. apply Hsrc. rewrite Heq. apply in_or_app. right. left.
      reflexivity.
  - exfalso. apply communityLoop_None in Hloop.
    rewrite List.Forall_forall in Hloop. exact (Hloop m0 Hin Hw).
Qed.

Lemma community_marker_has_priority_witness :
  exists before m after,
    communitySkipMarkers c1_component = before ++ m :: after
    /\ Forall (fun m' => ~ activationWindow m' (currentPosition c1_component)) before
    /\ activationWindow m (currentPosition c1_component)
    /\ resolveUpdate c1_component = SetActiveSkipMarker (Some m)
    /\ activeSkipMarker (resolve c1_component) = Some m
    /\ ((forall m', In m' (communitySkipMarkers c1_component) -> source m' <> manual) ->
        source m <> manual).
Proof.
  apply (community_marker_has_priority c1_component).
  - reflexivity.
  - reflexivity.
  - exists c1_marker_b. split.
    + simpl. right. left. reflexivity.
    + unfold activationWindow. simpl. split; [discriminate | reflexivity].
Defined.

End Priority.

Section Windows.
Import VideoPlayer.






End Windows.

Section ManualFallback.
Import VideoPlayer.

(** Turn the boolean tests of the source into order facts. *)
Ltac reflect_tests :=
  repeat match goal with
         | H : Qltb _ _ = true |- _ => apply Qltb_lt in H
         | H : Qltb _ _ = false |- _ => apply Qltb_ge in H
         | H : Qgeb _ _ = true |- _ => apply Qgeb_ge in H
         | H : Qgeb _ _ = false |- _ => apply Qgeb_lt in H
         end.

(** When the community branch does not return, the tick is decided by the
    manual fallback. *)
Lemma resolveUpdate_fallback (c : Component) :
  0 < duration c ->
  (enabledCommunitySkip (skipSettings c) = false
   \/ Forall (fun m => ~ activationWindow m (currentPosition c))
        (communitySkipMarkers c)) ->
  resolveUpdate c = manualFallback c.
Proof.
  intros Hd Hcom. unfold resolveUpdate. rewrite (duration_nonzero c Hd).
  destruct Hcom as [Hoff|Hnone].
  - rewrite Hoff. reflexivity.
  - apply communityLoop_None in Hnone. rewrite Hnone.
    destruct (enabledCommunitySkip (skipSettings c)
              && (0 <? length (communitySkipMarkers c))%nat); reflexivity.
Qed.

Lemma manualFallback_intro (c : Component) :
  enabledManualSkip (skipSettings c) = true ->
  manualIntroCondition c ->
  manualFallback c
  = SetActiveSkipMarker (Some (mkSkipMarker intro 0 (manualIntroSkip c) manual)).
Proof.
  intros Hman [H1 H2]. unfold manualFallback. rewrite Hman. simpl.
  apply Qltb_lt in H1. apply Qltb_lt in H2. rewrite H1, H2. reflexivity.
Qed.

Lemma manualFallback_not_intro (c : Component) :
  enabledManualSkip (skipSettings c) = true ->
  ~ manualIntroCondition c ->
  Qltb 0 (manualIntroSkip c) && Qltb (currentPosition c) (manualIntroSkip c)
  = false.
Proof.
  intros Hman Hni.
  destruct (Qltb 0 (manualIntroSkip c)) eqn:E1; [|reflexivity].
  destruct (Qltb (currentPosition c) (manualIntroSkip c)) eqn:E2; [|reflexivity].
  exfalso. apply Hni. reflect_tests. split; assumption.
Qed.

Lemma manualFallback_credits (c : Component) :
  0 < duration c ->
  enabledManualSkip (skipSettings c) = true ->
  ~ manualIntroCondition c ->
  manualCreditsCondition c ->
  manualFallback c
  = SetActiveSkipMarker
      (Some (mkSkipMarker credits (duration c - manualCreditsSkip c)
               (duration c) manual)).
Proof.
  intros Hd Hman Hni (H1 & H2 & H3). unfold manualFallback.
  rewrite Hman. simpl. rewrite (manualFallback_not_intro c Hman Hni).
  apply Qltb_lt in H1. apply Qltb_lt in Hd. rewrite H1, Hd. simpl.
  apply Qgeb_ge in H2. apply Qltb_lt in H3. rewrite H2, H3. reflexivity.
Qed.

Lemma manualFallback_neither (c : Component) :
  enabledManualSkip (skipSettings c) = true ->
  ~ manualIntroCondition c ->
  ~ manualCreditsCondition c ->
  forall m, manualFallback c <> SetActiveSkipMarker (Some m).
Proof.
  intros Hman Hni Hnc m. unfold manualFallback.
  rewrite Hman. simpl. rewrite (manualFallback_not_intro c Hman Hni).
  destruct (Qltb 0 (manualCreditsSkip c)) eqn:E1; simpl.
  - destruct (Qltb 0 (duration c)) eqn:E2.
    + destruct (Qgeb (currentPosition c) (duration c - manualCreditsSkip c - 10))
        eqn:E3; simpl.
      * destruct (Qltb (currentPosition c) (duration c - 5)) eqn:E4.
        -- exfalso. apply Hnc. reflect_tests. repeat split; assumption.
        -- destruct (activeTypeIs credits (activeSkipMarker c)); discriminate.
      * destruct (activeTypeIs credits (activeSkipMarker c)); discriminate.
    + destruct (activeTypeIs intro (activeSkipMarker c)); discriminate.
  - destruct (activeTypeIs intro (activeSkipMarker c)); discriminate.
Qed.

(** C3. On a tick with a loaded video where the community branch does not
    apply and manual skip is enabled: the tick asserts the synthetic marker
    [{intro, 0, manualIntroSkip, manual}] exactly when
    [manualIntroSkip > 0] and [position < manualIntroSkip]; otherwise it
    asserts [{credits, duration - manualCreditsSkip, duration, manual}]
    exactly when [manualCreditsSkip > 0] and
    [duration - manualCreditsSkip - 10 <= position < duration - 5]; an
    asserted marker is the active marker after the tick, and when neither
    condition holds the tick asserts no marker at all; so from a null
    active marker the marker after the tick is the intro one, the credits
    one or null exactly by these conditions.  In the scenario
    (duration 1200, manual intro 90) the ticks at position 0, at 90, then
    with 60 s of manual credits at 1150 and at 1196 leave the active marker
    [{intro,0,90,manual}], none, [{credits,1140,1200,manual}], none. *)
Theorem manual_fallback_windows :
  (forall c : Component,
     0 < duration c ->
     (enabledCommunitySkip (skipSettings c) = false
      \/ Forall (fun m => ~ activationWindow m (currentPosition c))
           (communitySkipMarkers c)) ->
     enabledManualSkip (skipSettings c) = true ->
     let introMarker := mkSkipMarker intro 0 (manualIntroSkip c) manual in
     let creditsMarker :=
       mkSkipMarker credits (duration c - manualCreditsSkip c) (duration c)
         manual in
     (resolveUpdate c = SetActiveSkipMarker (Some introMarker)
      <-> manualIntroCondition c)
     /\ (~ manualIntroCondition c ->
         (resolveUpdate c = SetActiveSkipMarker (Some creditsMarker)
          <-> manualCreditsCondition c))
     /\ (manualIntroCondition c ->
         activeSkipMarker (resolve c) = Some introMarker)
     /\ (~ manualIntroCondition c -> manualCreditsCondition c ->
         activeSkipMarker (resolve c) = Some creditsMarker)
     /\ (~ manualIntroCondition c -> ~ manualCreditsCondition c ->
         forall m, resolveUpdate c <> SetActiveSkipMarker (Some m))
     /\ (activeSkipMarker c = None ->
         (activeSkipMarker (resolve c) = Some introMarker
          <-> manualIntroCondition c)
         /\ (activeSkipMarker (resolve c) = Some creditsMarker
             <-> ~ manualIntroCondition c /\ manualCreditsCondition c)
         /\ (activeSkipMarker (resolve c) = None
             <-> ~ manualIntroCondition c /\ ~ manualCreditsCondition c)))
  /\ (let s0 := resolve (c3_at 0 0 None) in
      let s1 := resolve (c3_at 90 0 (activeSkipMarker s0)) in
      let s2 := resolve (c3_at 1150 60 (activeSkipMarker s1)) in
      let s3 := resolve (c3_at 1196 60 (activeSkipMarker s2)) in
      activeSkipMarker s0 = Some (mkSkipMarker intro 0 90 manual)
      /\ activeSkipMarker s1 = None
      /\ activeSkipMarker s2 = Some (mkSkipMarker credits 1140 1200 manual)
      /\ activeSkipMarker s3 = None).
Proof.
  split.
  - intros c Hd Hcom Hman introMarker creditsMarker.
    rewrite (resolveUpdate_fallback c Hd Hcom).
    assert (Hdec_i : manualIntroCondition c \/ ~ manualIntroCondition c).
    { unfold manualIntroCondition.
      destruct (Qlt_le_dec 0 (manualIntroSkip c));
        destruct (Qlt_le_dec (currentPosition c) (manualIntroSkip c));
        [left; split; assumption | right; lra | right; lra | right; lra]. }
    assert (Hdec_c : manualCreditsCondition c \/ ~ manualCreditsCondition c).
    { unfold manualCreditsCondition.
      destruct (Qlt_le_dec 0 (manualCreditsSkip c)); [|right; lra].
      destruct (Qlt_le_dec (currentPosition c)
                  (duration c - manualCreditsSkip c - 10)); [right; lra|].
      destruct (Qlt_le_dec (currentPosition c) (duration c - 5));
        [left; repeat split; assumption | right; lra]. }
    split; [|split; [|split; [|split; [|split]]]].
    + split.
      * intros Hset. destruct Hdec_i as [Hi|Hni]; [exact Hi|exfalso].
        destruct Hdec_c as [Hc|Hnc].
        -- rewrite (manualFallback_credits c Hd Hman Hni Hc) in Hset.
           discriminate Hset.
        -- exact (manualFallback_neither c Hman Hni Hnc _ Hset).
      * intros Hi. exact (manualFallback_intro c Hman Hi).
    + intros Hni. split.
      * intros Hset. destruct Hdec_c as [Hc|Hnc]; [exact Hc|exfalso].
        exact (manualFallback_neither c Hman Hni Hnc _ Hset).
      * intros Hc. exact (manualFallback_credits c Hd Hman Hni Hc).
    + intros Hi. unfold resolve.
      rewrite (resolveUpdate_fallback c Hd Hcom),
        (manualFallback_intro c Hman Hi). reflexivity.
    + intros Hni Hc. unfold resolve.
      rewrite (resolveUpdate_fallback c Hd Hcom),
        (manualFallback_credits c Hd Hman Hni Hc). reflexivity.
    + intros Hni Hnc. exact (manualFallback_neither c Hman Hni Hnc).
    + intros Hnone. unfold resolve.
      rewrite (resolveUpdate_fallback c Hd Hcom).
      destruct Hdec_i as [Hi|Hni].
      * rewrite (manualFallback_intro c Hman Hi). simpl.
        split; [tauto|]. split; split; [discriminate|tauto|discriminate|tauto].
      * destruct Hdec_c as [Hc|Hnc].
        -- rewrite (manualFallback_credits c Hd Hman Hni Hc). simpl.
           split; [split; [discriminate|tauto]|].
           split; split; [tauto|reflexivity|discriminate|tauto].
        -- pose proof (manualFallback_neither c Hman Hni Hnc) as Hnever.
           destruct (manualFallback c) as [|[m|]]; simpl.
           ++ rewrite Hnone.
              split; [split; [discriminate|tauto]|].
              split; split; [discriminate|tauto|tauto|reflexivity].
           ++ exfalso. exact (Hnever m eq_refl).
           ++ split; [split; [discriminate|tauto]|].
              split; split; [discriminate|tauto|tauto|reflexivity].
  - vm_compute. repeat split; reflexivity.
Qed.

Lemma manual_fallback_windows_witness :
  let c := c3_at 1150 60 None in
  ~ manualIntroCondition c /\ manualCreditsCondition c
  /\ activeSkipMarker (resolve c)
     = Some (mkSkipMarker credits (duration c - manualCreditsSkip c)
               (duration c) manual).
Proof.
  assert (Hni : ~ manualIntroCondition (c3_at 1150 60 None)).
  { unfold manualIntroCondition. simpl. intros [_ H]. discriminate H. }
  assert (Hc : manualCreditsCondition (c3_at 1150 60 None)).
  { unfold manualCreditsCondition. simpl.
    split; [reflexivity|]. split; [discriminate | reflexivity]. }
  split; [exact Hni|]. split; [exact Hc|].
  destruct (proj1 manual_fallback_windows (c3_at 1150 60 None))
    as (_ & _ & _ & Hcredits & _).
  - reflexivity.
  - left. reflexivity.
  - reflexivity.
  - exact (Hcredits Hni Hc).
Defined.

End ManualFallback.

Section StaleMarkers.
Import VideoPlayer.

(** Where the source does clear a stale intro marker: the last arm of the
    chain, reached only when no manual credits are configured. *)
Lemma stale_intro_cleared_without_manual_credits (c : Component) (m : SkipMarker) :
  0 < duration c ->
  (enabledCommunitySkip (skipSettings c) = false
   \/ Forall (fun m => ~ activationWindow m (currentPosition c))
        (communitySkipMarkers c)) ->
  enabledManualSkip (skipSettings c) = true ->
  ~ manualIntroCondition c ->
  manualCreditsSkip c <= 0 ->
  activeSkipMarker c = Some m ->
  type m = intro ->
  activeSkipMarker (resolve c) = None.
Proof.
  intros Hd Hcom Hman Hni Hmc Hact Hty. unfold resolve.
  rewrite (resolveUpdate_fallback c Hd Hcom). unfold manualFallback.
  rewrite Hman. simpl. rewrite (manualFallback_not_intro c Hman Hni).
  apply Qltb_ge in Hmc. rewrite Hmc. simpl.
  rewrite Hact. simpl. rewrite Hty. reflexivity.
Qed.

(** C4 (the code departs from it).  Duration 1200, manual intro 90, manual
    credits 60, position 90, the manual intro marker still active from the
    tick before: manual skip is enabled, no community marker matches and
    neither manual condition holds, yet the tick makes no call on
    [setActiveSkipMarker] and the intro marker stays active.  The arm that
    clears a stale intro marker is reached only when no manual credits are
    configured: the same tick with 0 s of manual credits clears it, and with
    60 s the chain clears a stale credits marker only. *)
Theorem stale_intro_kept_when_manual_credits_set :
  let stale := mkSkipMarker intro 0 90 manual in
  let c := c3_at 90 60 (Some stale) in
  0 < duration c
  /\ enabledManualSkip (skipSettings c) = true
  /\ communityLoop (currentPosition c) (communitySkipMarkers c) = None
  /\ ~ manualIntroCondition c
  /\ ~ manualCreditsCondition c
  /\ type stale = intro
  /\ resolveUpdate c = NoUpdate
  /\ activeSkipMarker (resolve c) = Some stale
  /\ activeSkipMarker (resolve (c3_at 90 0 (Some stale))) = None
  /\ activeSkipMarker
       (resolve (c3_at 90 60 (Some (mkSkipMarker credits 1140 1200 manual))))
     = None.
Proof.
  simpl. repeat split.
  - unfold manualIntroCondition. simpl. intros [_ H]. discriminate H.
  - unfold manualCreditsCondition. simpl. intros (_ & H & _). apply H.
    reflexivity.
Qed.

End StaleMarkers.

(** ** Skip execution and the auto-skip countdown *)

Section Countdown.
Import VideoPlayer.

(** C10. [handleSkip], in the current render or as captured by the
    countdown's interval, with a marker at hand performs exactly two
    assignments: [player.currentTime] becomes the marker's [endTime] and the
    active marker becomes null.  Playback rate, play/pause state and the
    player's duration, the community marker list, the manual fallback
    seconds, the skip settings, and the sampled position, duration,
    countdown and interval are as before.  Without a marker it changes
    nothing. *)
Theorem handleSkip_frame (captured : option SkipMarker) (c : Component) :
  handleSkip c = handleSkipOf (activeSkipMarker c) c
  /\ match captured with
     | Some marker =>
         let c' := handleSkipOf captured c in
         currentTime (player c') = endTime marker
         /\ seeks (player c') = endTime marker :: seeks (player c)
         /\ activeSkipMarker c' = None
         /\ playbackRate (player c') = playbackRate (player c)
         /\ playing (player c') = playing (player c)
         /\ playerDuration (player c') = playerDuration (player c)
         /\ communitySkipMarkers c' = communitySkipMarkers c
         /\ manualIntroSkip c' = manualIntroSkip c
         /\ manualCreditsSkip c' = manualCreditsSkip c
         /\ skipSettings c' = skipSettings c
         /\ currentPosition c' = currentPosition c
         /\ duration c' = duration c
         /\ autoSkipCountdown c' = autoSkipCountdown c
         /\ autoSkipInterval c' = autoSkipInterval c
     | None => handleSkipOf captured c = c
     end.
Proof.
  split; [reflexivity|].
  destruct captured as [marker|]; simpl; repeat split; reflexivity.
Qed.

Lemma intervalTicks_idle (n : nat) (c : Component) :
  autoSkipInterval c = None -> intervalTicks n c = c.
Proof.
  revert c. induction n as [|n IH]; intros c H; simpl; [reflexivity|].
  unfold intervalTick. rewrite H. apply IH. exact H.
Qed.

Lemma intervalTicks_add (n k : nat) (c : Component) :
  intervalTicks (n + k) c = intervalTicks k (intervalTicks n c).
Proof.
  revert c. induction n as [|n IH]; intros c; simpl; [reflexivity|]. apply IH.
Qed.

(** The countdown on its own: with a marker active and auto-skip enabled,
    once the countdown effect has run and for as long as neither effect is
    run again, the displayed countdown is 3, then 2 and 1 after the first
    and second firing of the one-second interval, with no seek so far; the
    third firing assigns the marker's [endTime] to [player.currentTime],
    and then the active marker is null, no countdown is displayed and no
    interval is live. *)
Lemma countdown_without_rerun (c : Component) (m : SkipMarker) :
  activeSkipMarker c = Some m ->
  autoSkipEnabled (skipSettings c) = true ->
  let c0 := countdownEffect c in
  let c3 := intervalTicks 3 c0 in
  (autoSkipCountdown c0 = Some 3%Z
   /\ activeSkipMarker c0 = Some m /\ player c0 = player c)
  /\ (autoSkipCountdown (intervalTicks 1 c0) = Some 2%Z
      /\ activeSkipMarker (intervalTicks 1 c0) = Some m
      /\ player (intervalTicks 1 c0) = player c)
  /\ (autoSkipCountdown (intervalTicks 2 c0) = Some 1%Z
      /\ activeSkipMarker (intervalTicks 2 c0) = Some m
      /\ player (intervalTicks 2 c0) = player c)
  /\ (currentTime (player c3) = endTime m
      /\ seeks (player c3) = endTime m :: seeks (player c)
      /\ activeSkipMarker c3 = None
      /\ autoSkipCountdown c3 = None
      /\ autoSkipInterval c3 = None)
  /\ (forall n, (3 <= n)%nat -> intervalTicks n c0 = c3)
  /\ countdownEffect c3 = c3.
Proof.
  intros Hact Hauto c0 c3.
  assert (Hc0 : c0 = setAutoSkipInterval
                       (Some (mkIntervalClosure 3 (Some m)))
                       (setAutoSkipCountdown (Some 3%Z)
                          (setAutoSkipInterval None c))).
  { unfold c0, countdownEffect, countdownBody, countdownCleanup. simpl.
    rewrite Hact, Hauto. reflexivity. }
  assert (Hc3 : c3 = setAutoSkipInterval None
                       (setAutoSkipCountdown None
                          (setActiveSkipMarker None
                             (setPlayerCurrentTime (endTime m) c)))).
  { unfold c3. rewrite Hc0. destruct c as [? ? ? ? ? ? ? ? ? []].
    reflexivity. }
  split; [|split; [|split; [|split; [|split]]]].
  - rewrite Hc0. simpl. repeat split. exact Hact.
  - rewrite Hc0. simpl. repeat split. exact Hact.
  - rewrite Hc0. simpl. repeat split. exact Hact.
  - rewrite Hc3. simpl. repeat split.
  - intros n Hn. replace n with (3 + (n - 3))%nat by lia.
    rewrite intervalTicks_add. fold c3. apply intervalTicks_idle.
    rewrite Hc3. reflexivity.
  - rewrite Hc3. reflexivity.
Qed.

(** A re-run of the effect (its dependency [activeSkipMarker] was assigned a
    different object) drops the live interval and starts again at 3. *)
Lemma countdownEffect_restarts (c : Component) (m : SkipMarker) (n : nat) :
  activeSkipMarker c = Some m ->
  autoSkipEnabled (skipSettings c) = true ->
  (n < 3)%nat ->
  countdownEffect (intervalTicks n (countdownEffect c)) = countdownEffect c.
Proof.
  intros Hact Hauto Hn.
  assert (Hc0 : countdownEffect c
                = setAutoSkipInterval
                    (Some (mkIntervalClosure 3 (Some m)))
                    (setAutoSkipCountdown (Some 3%Z)
                       (setAutoSkipInterval None c))).
  { unfold countdownEffect, countdownBody, countdownCleanup. simpl.
    rewrite Hact, Hauto. reflexivity. }
  rewrite Hc0.
  destruct n as [|[|[|n]]]; [| | |lia];
    unfold countdownEffect, countdownBody, countdownCleanup; simpl;
    rewrite Hact, Hauto; reflexivity.
Qed.

(** C8. A run on which the skip is performed twice.  Default settings
    with auto-skip on, a community credits marker from 1100 to 1150, no
    manual seconds, the marker active at the sampled position 1095.  The
    countdown runs 3, 2, 1 and its third firing seeks to 1150 and sets the
    active marker to null.  That assignment changes [activeSkipMarker?.type],
    a dependency of the resolution effect (line 224), so the effect runs
    again before the next position sample, on the position 1095 sampled
    before the seek, and asserts the marker again; the countdown effect
    (dependency [activeSkipMarker], line 252) starts a second countdown at
    3.  The next sample reads 1150: no community window holds, and with
    manual skip enabled and no manual seconds the chain of lines 202-223
    makes no call for an active credits marker, so the marker stays
    active.  The second countdown runs out and seeks to 1150 a second
    time. *)
Theorem auto_skip_fires_twice :
  let m := c8_credits in
  let c0 := countdownEffect c8_credits_component in
  let c1 := intervalTicks 3 c0 in
  let c2 := countdownEffect (resolve c1) in
  let c3 := resolve (Controls.samplePosition c2) in
  let c4 := intervalTicks 3 c3 in
  (activeSkipMarker c8_credits_component = Some m
   /\ autoSkipEnabled (skipSettings c8_credits_component) = true
   /\ autoSkipCountdown c0 = Some 3%Z
   /\ autoSkipCountdown (intervalTicks 1 c0) = Some 2%Z
   /\ autoSkipCountdown (intervalTicks 2 c0) = Some 1%Z
   /\ seeks (player (intervalTicks 2 c0)) = [])
  /\ (seeks (player c1) = [endTime m]
      /\ activeSkipMarker c1 = None
      /\ autoSkipCountdown c1 = None
      /\ autoSkipInterval c1 = None
      /\ currentPosition c1 = 1095)
  /\ (resolveUpdate c1 = SetActiveSkipMarker (Some m)
      /\ activeSkipMarker c2 = Some m
      /\ autoSkipCountdown c2 = Some 3%Z)
  /\ (currentPosition (Controls.samplePosition c2) = endTime m
      /\ resolveUpdate (Controls.samplePosition c2) = NoUpdate
      /\ activeSkipMarker c3 = Some m
      /\ autoSkipCountdown c3 = Some 3%Z)
  /\ (seeks (player c4) = [endTime m; endTime m]
      /\ activeSkipMarker c4 = None
      /\ autoSkipInterval c4 = None).
Proof.
  cbv zeta. repeat split; vm_compute; reflexivity.
Qed.

End Countdown.

(** ** The aggregator *)

Section Merge.
Import CommunitySkipService.

Lemma exists_covered (kept : list SkipMarker) (marker : SkipMarker) :
  exists_ kept marker = true <-> covered kept marker.
Proof.
  unfold exists_, covered. rewrite existsb_exists. split.
  - intros (k & Hin & Hk). apply andb_true_iff in Hk as [Hty Hlt].
    exists k. repeat split; [exact Hin | | ].
    + apply SkipType_eqb_eq. exact Hty.
    + apply Qltb_lt. exact Hlt.
  - intros (k & Hin & Hty & Hlt). exists k. split; [exact Hin|].
    apply andb_true_iff. split.
    + apply SkipType_eqb_eq. exact Hty.
    + apply Qltb_lt. exact Hlt.
Qed.

Lemma mergeMarkers_cons (first rest : list SkipMarker) (m : SkipMarker) :
  mergeMarkers first (m :: rest)
  = mergeMarkers (if negb (exists_ first m) then first ++ [m] else first) rest.
Proof. reflexivity. Qed.

Lemma mergeMarkers_snoc (first second : list SkipMarker) (m : SkipMarker) :
  mergeMarkers first (second ++ [m])
  = if negb (exists_ (mergeMarkers first second) m)
    then mergeMarkers first second ++ [m]
    else mergeMarkers first second.
Proof. unfold mergeMarkers. rewrite fold_left_app. reflexivity. Qed.

Lemma mergeMarkers_prefix (second first : list SkipMarker) :
  exists kept, mergeMarkers first second = first ++ kept
               /\ kept `sublist_of` second.
Proof.
  revert first. induction second as [|m rest IH]; intros first.
  - exists []. split; [symmetry; apply app_nil_r | constructor].
  - rewrite mergeMarkers_cons. destruct (negb (exists_ first m)).
    + destruct (IH (first ++ [m])) as (kept & Heq & Hsub).
      exists (m :: kept). split.
      * rewrite Heq, <- app_assoc. reflexivity.
      * apply sublist_skip. exact Hsub.
    + destruct (IH first) as (kept & Heq & Hsub).
      exists kept. split; [exact Heq|]. apply sublist_cons. exact Hsub.
Qed.

End Merge.

Section Aggregator.
Import CommunitySkipService.

(** A provider adapter never throws: every outcome of the request ends in
    a marker list. *)
Lemma getProviderMarkers_returns (f : Fetch) :
  exists markers, getProviderMarkers f = Return markers.
Proof.
  destruct f as [|[] [data|]]; simpl; eexists; reflexivity.
Qed.

Lemma getProviderMarkers_error (f : Fetch) :
  providerError f -> getProviderMarkers f = Return [].
Proof.
  destruct f as [|ok json]; simpl; [reflexivity|].
  intros [->| ->]; [reflexivity|]. destruct ok; reflexivity.
Qed.

(** What the adapter returns came out of [convertToSkipMarkers] or is empty;
    either way at most one intro followed by at most one credits marker, which
    the merge into an empty base keeps as they are. *)
Lemma mergeMarkers_nil_provider (f : Fetch) (markers : list SkipMarker) :
  getProviderMarkers f = Return markers ->
  mergeMarkers [] markers = markers.
Proof.
  destruct f as [|[] [data|]]; simpl; intros [= <-]; try reflexivity.
  destruct data as [[[[s|] [e|]]|] [[[s'|] [e'|]]|] ? ?]; reflexivity.
Qed.

Lemma mergeMarkers_nil_r (first : list SkipMarker) : mergeMarkers first [] = first.
Proof. reflexivity. Qed.

(** The path taken when the cache check fails. *)
Lemma getSkipMarkersForEpisode_fetch (imdbId : string) (season episode : N)
    (now now' : Z) (introHater stremio : Fetch) (svc : Service)
    (l1 l2 : list SkipMarker) :
  let key := episodeKey imdbId season episode in
  cacheHit (cache svc !! key) (lastFetchTime svc !! key) now = None ->
  getIntroHaterMarkers introHater = Return l1 ->
  getStremioSkipMarkers stremio = Return l2 ->
  getSkipMarkersForEpisode imdbId season episode now introHater stremio now' svc
  = mkOutcome (Return (mergeMarkers l1 l2))
      (mkService (<[key := mergeMarkers l1 l2]> (cache svc))
                 (<[key := now']> (lastFetchTime svc)))
      [IntroHater; Stremio].
Proof.
  intros key Hmiss H1 H2. unfold getSkipMarkersForEpisode.
  fold key. rewrite Hmiss, H1, H2. reflexivity.
Qed.

(** C5. On a cache miss [getSkipMarkersForEpisode] returns, and caches
    under the episode's key, the merge of IntroHater's markers (the first
    provider) with Stremio's (the second).  The merged list starts with the
    first provider's markers in their order, followed by markers of the
    second provider in their order.  Going through the second provider's
    markers one by one, a marker is appended exactly when no marker kept so
    far has its type and a start time less than 2 seconds away.  Two
    markers of one type whose starts differ by 1.5 s merge into the first
    provider's alone; with 2.5 s both are kept: when each provider reports
    one intro, the call returns IntroHater's intro alone in the first case
    and IntroHater's followed by Stremio's in the second. *)
Theorem merge_deduplicates :
  (forall (imdbId : string) (season episode : N) (now now' : Z)
          (introHater stremio : Fetch) (svc : Service),
     let key := episodeKey imdbId season episode in
     let out :=
       getSkipMarkersForEpisode imdbId season episode now introHater stremio
         now' svc in
     cacheHit (cache svc !! key) (lastFetchTime svc !! key) now = None ->
     exists first second kept,
       getIntroHaterMarkers introHater = Return first
       /\ getStremioSkipMarkers stremio = Return second
       /\ settled out = Return (mergeMarkers first second)
       /\ cache (service out) !! key = Some (mergeMarkers first second)
       /\ mergeMarkers first second = first ++ kept
       /\ kept `sublist_of` second)
  /\ (forall first second : list SkipMarker,
        exists kept, mergeMarkers first second = first ++ kept
                     /\ kept `sublist_of` second)
  /\ (forall first : list SkipMarker, mergeMarkers first [] = first)
  /\ (forall (first second : list SkipMarker) (m : SkipMarker),
        let kept := mergeMarkers first second in
        (covered kept m -> mergeMarkers first (second ++ [m]) = kept)
        /\ (~ covered kept m -> mergeMarkers first (second ++ [m]) = kept ++ [m]))
  /\ (forall a b : SkipMarker,
        type a = type b ->
        Qabs (startTime a - startTime b) == 3 # 2 ->
        mergeMarkers [a] [b] = [a])
  /\ (forall a b : SkipMarker,
        type a = type b ->
        Qabs (startTime a - startTime b) == 5 # 2 ->
        mergeMarkers [a] [b] = [a; b])
  /\ (forall (imdbId : string) (season episode : N) (now now' : Z)
             (svc : Service) (s1 e1 s2 e2 : Q),
        let key := episodeKey imdbId season episode in
        let out :=
          settled
            (getSkipMarkersForEpisode imdbId season episode now
               (c5_answer s1 e1) (c5_answer s2 e2) now' svc) in
        cacheHit (cache svc !! key) (lastFetchTime svc !! key) now = None ->
        (Qabs (s1 - s2) == 3 # 2 ->
         out = Return [mkSkipMarker intro s1 e1 fingerprint])
        /\ (Qabs (s1 - s2) == 5 # 2 ->
            out = Return [mkSkipMarker intro s1 e1 fingerprint;
                          mkSkipMarker intro s2 e2 fingerprint])).
Proof.
  assert (Hnear : forall a b : SkipMarker,
             type a = type b ->
             Qabs (startTime a - startTime b) == 3 # 2 ->
             mergeMarkers [a] [b] = [a]).
  { intros a b Hty Hd.
    assert (E : exists_ [a] b = true).
    { apply exists_covered. exists a. split; [left; reflexivity|].
      split; [exact Hty|]. rewrite Hd. reflexivity. }
    rewrite mergeMarkers_cons, E. reflexivity. }
  assert (Hfar : forall a b : SkipMarker,
             type a = type b ->
             Qabs (startTime a - startTime b) == 5 # 2 ->
             mergeMarkers [a] [b] = [a; b]).
  { intros a b Hty Hd.
    assert (E : exists_ [a] b = false).
    { destruct (exists_ [a] b) eqn:E; [|reflexivity].
      apply exists_covered in E. destruct E as (k & [<-|[]] & _ & Hlt).
      rewrite Hd in Hlt. discriminate Hlt. }
    rewrite mergeMarkers_cons, E. reflexivity. }
  split; [|split; [|split; [|split; [|split; [|split]]]]].
  - intros imdbId season episode now now' introHater stremio svc key out Hmiss.
    destruct (getProviderMarkers_returns introHater) as (first & H1).
    destruct (getProviderMarkers_returns stremio) as (second & H2).
    destruct (mergeMarkers_prefix second first) as (kept & Heq & Hsub).
    exists first, second, kept.
    split; [exact H1|]. split; [exact H2|].
    unfold out.
    rewrite (getSkipMarkersForEpisode_fetch imdbId season episode now now'
               introHater stremio svc first second Hmiss H1 H2).
    simpl. split; [reflexivity|]. split; [apply lookup_insert_eq|].
    split; assumption.
  - intros first second. apply mergeMarkers_prefix.
  - reflexivity.
  - intros first second m kept. rewrite mergeMarkers_snoc. fold kept.
    destruct (exists_ kept m) eqn:E; simpl.
    + split; [reflexivity|]. intros H. exfalso. apply H.
      apply exists_covered. exact E.
    + split; [|reflexivity]. intros H. apply exists_covered in H. congruence.
  - exact Hnear.
  - exact Hfar.
  - intros imdbId season episode now now' svc s1 e1 s2 e2 key out Hmiss.
    unfold out.
    rewrite (getSkipMarkersForEpisode_fetch imdbId season episode now now'
               (c5_answer s1 e1) (c5_answer s2 e2) svc
               [mkSkipMarker intro s1 e1 fingerprint]
               [mkSkipMarker intro s2 e2 fingerprint] Hmiss eq_refl eq_refl).
    unfold settled. split; intros Hd; f_equal.
    + apply Hnear; [reflexivity | exact Hd].
    + apply Hfar; [reflexivity | exact Hd].
Qed.

Lemma merge_deduplicates_witness :
  settled
    (getSkipMarkersForEpisode "tt0903747" 1 3 1700000000000
       (c5_answer 30 90) (c5_answer (63 # 2) 91) 1700000000500 c6_service)
  = Return [c5_first]
  /\ settled
       (getSkipMarkersForEpisode "tt0903747" 1 3 1700000000000
          (c5_answer 30 90) (c5_answer (65 # 2) 91) 1700000000500 c6_service)
     = Return [c5_first; c5_far]
  /\ mergeMarkers [c5_first] [c5_near] = [c5_first]
  /\ mergeMarkers [c5_first] [c5_far] = [c5_first; c5_far].
Proof.
  destruct merge_deduplicates as (_ & _ & _ & _ & Hnear & Hfar & Hcall).
  split; [|split; [|split]].
  - apply (Hcall "tt0903747"%string 1%N 3%N 1700000000000%Z 1700000000500%Z
             c6_service 30 90 (63 # 2) 91); reflexivity.
  - apply (Hcall "tt0903747"%string 1%N 3%N 1700000000000%Z 1700000000500%Z
             c6_service 30 90 (65 # 2) 91); reflexivity.
  - apply Hnear; reflexivity.
  - apply Hfar; reflexivity.
Defined.

(** C6. For an episode key with a cached list and a fetch time [fetchedAt]
    (a [Date.now()] value, so not 0): while [now - fetchedAt] is below
    24 h = 86400000 ms the call returns the cached list as it is, asks no
    provider and leaves the service untouched; from 24 h on it asks both
    providers, returns the merge of what they give, and stores that list
    (empty or not) and the time of the write under the key, other keys as
    they were.  One millisecond before 24 h is on the first side, 24 h
    itself and one millisecond after are on the second. *)
Theorem cache_ttl (imdbId : string) (season episode : N) (now now' : Z)
    (introHater stremio : Fetch) (svc : Service)
    (cached : list SkipMarker) (fetchedAt : Z) :
  let key := episodeKey imdbId season episode in
  let out :=
    getSkipMarkersForEpisode imdbId season episode now introHater stremio now'
      svc in
  cache svc !! key = Some cached ->
  lastFetchTime svc !! key = Some fetchedAt ->
  fetchedAt <> 0%Z ->
  cacheTTL = 86400000%Z
  /\ ((now - fetchedAt < cacheTTL)%Z ->
      settled out = Return cached /\ requests out = [] /\ service out = svc)
  /\ ((cacheTTL <= now - fetchedAt)%Z ->
      exists l1 l2,
        getIntroHaterMarkers introHater = Return l1
        /\ getStremioSkipMarkers stremio = Return l2
        /\ requests out = [IntroHater; Stremio]
        /\ settled out = Return (mergeMarkers l1 l2)
        /\ cache (service out) !! key = Some (mergeMarkers l1 l2)
        /\ lastFetchTime (service out) !! key = Some now'
        /\ (forall k, k <> key ->
              cache (service out) !! k = cache svc !! k
              /\ lastFetchTime (service out) !! k = lastFetchTime svc !! k))
  /\ ((now = fetchedAt + cacheTTL - 1)%Z -> requests out = [])
  /\ ((now = fetchedAt + cacheTTL)%Z -> requests out = [IntroHater; Stremio])
  /\ ((now = fetchedAt + cacheTTL + 1)%Z -> requests out = [IntroHater; Stremio]).
Proof.
  intros key out Hc Ht Hnz.
  assert (Hfresh : (now - fetchedAt < cacheTTL)%Z ->
                   out = mkOutcome (Return cached) svc []).
  { intros Hlt. unfold out, getSkipMarkersForEpisode. fold key.
    rewrite Hc, Ht. unfold cacheHit.
    apply Z.eqb_neq in Hnz. rewrite Hnz.
    apply Z.ltb_lt in Hlt. rewrite Hlt. reflexivity. }
  assert (Hstale : (cacheTTL <= now - fetchedAt)%Z ->
                   exists l1 l2,
                     getIntroHaterMarkers introHater = Return l1
                     /\ getStremioSkipMarkers stremio = Return l2
                     /\ out = mkOutcome (Return (mergeMarkers l1 l2))
                                (mkService
                                   (<[key := mergeMarkers l1 l2]> (cache svc))
                                   (<[key := now']> (lastFetchTime svc)))
                                [IntroHater; Stremio]).
  { intros Hge.
    destruct (getProviderMarkers_returns introHater) as [l1 H1].
    destruct (getProviderMarkers_returns stremio) as [l2 H2].
    exists l1, l2. split; [exact H1|]. split; [exact H2|].
    apply getSkipMarkersForEpisode_fetch; [|exact H1|exact H2].
    fold key. rewrite Hc, Ht. unfold cacheHit.
    apply Z.ltb_ge in Hge. rewrite Hge, andb_false_r. reflexivity. }
  split; [reflexivity|]. split; [|split; [|split; [|split]]].
  - intros Hlt. rewrite (Hfresh Hlt). repeat split.
  - intros Hge. destruct (Hstale Hge) as (l1 & l2 & H1 & H2 & ->).
    exists l1, l2. simpl. repeat split; try assumption.
    + apply lookup_insert_eq.
    + apply lookup_insert_eq.
    + apply lookup_insert_ne. congruence.
    + apply lookup_insert_ne. congruence.
  - intros ->. rewrite Hfresh; [reflexivity|lia].
  - intros ->. destruct Hstale as (l1 & l2 & _ & _ & ->); [lia|reflexivity].
  - intros ->. destruct Hstale as (l1 & l2 & _ & _ & ->); [lia|reflexivity].
Qed.

Lemma cache_ttl_witness :
  let before := (1700000000000 + 86400000 - 1)%Z in
  let after := (1700000000000 + 86400000 + 1)%Z in
  let call now :=
    getSkipMarkersForEpisode "tt0903747" 1 2 now c6_introHater c6_stremio
      (now + 250)%Z c6_service in
  (settled (call before) = Return [c5_first]
   /\ requests (call before) = []
   /\ service (call before) = c6_service)
  /\ requests (call after) = [IntroHater; Stremio].
Proof.
  intros before after call. split.
  - apply (cache_ttl "tt0903747" 1 2 before (before + 250) c6_introHater
             c6_stremio c6_service [c5_first] 1700000000000).
    + vm_compute. reflexivity.
    + vm_compute. reflexivity.
    + discriminate.
    + vm_compute. reflexivity.
  - apply (cache_ttl "tt0903747" 1 2 after (after + 250) c6_introHater
             c6_stremio c6_service [c5_first] 1700000000000).
    + vm_compute. reflexivity.
    + vm_compute. reflexivity.
    + discriminate.
    + vm_compute. reflexivity.
Defined.

(** C7. No provider behaviour makes [getSkipMarkersForEpisode] throw: its
    promise always settles to a marker list.  A provider whose request
    times out or fails, answers with a non-2xx status or sends no JSON
    contributes the empty list, and the call then returns what the other
    provider contributes, unchanged; when both fail the call returns the
    empty list. *)
Theorem aggregator_contains_errors (imdbId : string) (season episode : N)
    (now now' : Z) (introHater stremio : Fetch) (svc : Service) :
  let key := episodeKey imdbId season episode in
  let out :=
    getSkipMarkersForEpisode imdbId season episode now introHater stremio now'
      svc in
  (exists markers, settled out = Return markers)
  /\ (exists l1, getIntroHaterMarkers introHater = Return l1)
  /\ (exists l2, getStremioSkipMarkers stremio = Return l2)
  /\ (providerError introHater -> getIntroHaterMarkers introHater = Return [])
  /\ (providerError stremio -> getStremioSkipMarkers stremio = Return [])
  /\ (cacheHit (cache svc !! key) (lastFetchTime svc !! key) now = None ->
      (providerError introHater ->
       forall l2, getStremioSkipMarkers stremio = Return l2 ->
                  settled out = Return l2)
      /\ (providerError stremio ->
          forall l1, getIntroHaterMarkers introHater = Return l1 ->
                     settled out = Return l1)
      /\ (providerError introHater -> providerError stremio ->
          settled out = Return [])).
Proof.
  intros key out.
  destruct (getProviderMarkers_returns introHater) as [l1 H1].
  destruct (getProviderMarkers_returns stremio) as [l2 H2].
  change (getIntroHaterMarkers introHater = Return l1) in H1.
  change (getStremioSkipMarkers stremio = Return l2) in H2.
  split; [|split; [|split; [|split; [|split]]]].
  - unfold out, getSkipMarkersForEpisode. fold key.
    destruct (cacheHit (cache svc !! key) (lastFetchTime svc !! key) now)
      as [markers|] eqn:Hhit.
    + exists markers. reflexivity.
    + rewrite H1, H2. simpl. eexists. reflexivity.
  - exists l1. exact H1.
  - exists l2. exact H2.
  - apply getProviderMarkers_error.
  - apply getProviderMarkers_error.
  - intros Hmiss. split; [|split].
    + intros He l2' H2'.
      pose proof (getProviderMarkers_error introHater He) as H1'.
      unfold out.
      rewrite (getSkipMarkersForEpisode_fetch imdbId season episode now now'
                 introHater stremio svc [] l2' Hmiss H1' H2').
      simpl. rewrite (mergeMarkers_nil_provider stremio l2' H2'). reflexivity.
    + intros He l1' H1'.
      pose proof (getProviderMarkers_error stremio He) as H2'.
      unfold out.
      rewrite (getSkipMarkersForEpisode_fetch imdbId season episode now now'
                 introHater stremio svc l1' [] Hmiss H1' H2').
      reflexivity.
    + intros He1 He2.
      pose proof (getProviderMarkers_error introHater He1) as H1'.
      pose proof (getProviderMarkers_error stremio He2) as H2'.
      unfold out.
      rewrite (getSkipMarkersForEpisode_fetch imdbId season episode now now'
                 introHater stremio svc [] [] Hmiss H1' H2').
      reflexivity.
Qed.

Lemma aggregator_contains_errors_witness :
  let out :=
    getSkipMarkersForEpisode "tt0903747" 1 3 1700000000000
      Rejects c6_stremio 1700000000250 c6_service in
  settled out
  = Return [mkSkipMarker intro 32 93 fingerprint;
            mkSkipMarker credits 1100 1200 fingerprint].
Proof.
  destruct (aggregator_contains_errors "tt0903747" 1 3 1700000000000
              1700000000250 Rejects c6_stremio c6_service)
    as (_ & _ & _ & _ & _ & Hmiss).
  destruct Hmiss as (Hfirst & _ & _).
  - vm_compute. reflexivity.
  - apply Hfirst.
    + exact I.
    + reflexivity.
Defined.

End Aggregator.

(** ** The scrobble sequencer *)

Section Scrobble.
Import UseTrakt.

Lemma run_app (token : bool) (a b : list Op) (r : Refs) :
  run token (a ++ b) r
  = (fst (run token b (fst (run token a r))),
     snd (run token a r) ++ snd (run token b (fst (run token a r)))).
Proof.
  revert r. induction a as [|op a IH]; intros r.
  - simpl. destruct (run token b r); reflexivity.
  - simpl. destruct (step token op r) as [r1 calls].
    rewrite IH. destruct (run token a r1) as [r2 trace]. reflexivity.
Qed.

Lemma completionReports_app (t1 t2 : list (Op * list Call)) :
  completionReports (t1 ++ t2) = completionReports t1 ++ completionReports t2.
Proof. unfold completionReports. rewrite map_app, concat_app. reflexivity. Qed.

(** Below 80 % (or with no duration yet) nothing is reported and the
    session is not marked. *)
Lemma step_below80 (op : Op) (r : Refs) :
  hasScrobbled80 r = false ->
  ~ reaches80 op ->
  hasScrobbled80 (fst (step true op r)) = false
  /\ reportsOf (op, snd (step true op r)) = [].
Proof.
  intros Hflag Hno. destruct op as [success|p|p|t d|success| | |]; simpl.
  - unfold scrobbleStart. simpl.
    destruct (hasScrobbledStart r), success; simpl; auto.
  - unfold scrobblePause. simpl. destruct (isPlaying r); simpl; auto.
  - auto.
  - unfold updateProgress, reportsOf. simpl.
    destruct (Qeq_bool d 0) eqn:Ed; simpl; [auto|].
    destruct (Qgeb (t / d * 100) 80) eqn:Ege; simpl; [|auto].
    exfalso. apply Hno. simpl. split.
    + intros Hz. apply Qeq_bool_iff in Hz. congruence.
    + apply Qgeb_ge. exact Ege.
  - unfold onPlay, scrobbleStart. simpl.
    destruct (hasScrobbledStart r), (isPlaying r), success; simpl; auto.
  - unfold onPause, scrobblePause. simpl. destruct (isPlaying r); simpl; auto.
  - auto.
  - auto.
Qed.

(** Once the session is marked, no operation short of a reset reports
    again or unmarks it. *)
Lemma step_marked (token : bool) (op : Op) (r : Refs) :
  hasScrobbled80 r = true ->
  resets op = false ->
  hasScrobbled80 (fst (step token op r)) = true
  /\ reportsOf (op, snd (step token op r)) = [].
Proof.
  intros Hflag Hop. destruct op as [success|p|p|t d|success| | |]; simpl;
    try discriminate Hop.
  - unfold scrobbleStart.
    destruct token, (hasScrobbledStart r), success; simpl; auto.
  - unfold scrobblePause. destruct token, (isPlaying r); simpl; auto.
  - unfold scrobbleStop. destruct token; simpl; auto.
  - unfold updateProgress, reportsOf. simpl.
    destruct (negb token || Qeq_bool d 0); simpl; [auto|].
    rewrite Hflag, andb_false_r. simpl. auto.
  - unfold onPlay, scrobbleStart.
    destruct token, (hasScrobbledStart r), (isPlaying r), success; simpl; auto.
  - unfold onPause, scrobblePause. destruct token, (isPlaying r); simpl; auto.
Qed.

Lemma run_below80 (ops : list Op) (r : Refs) :
  hasScrobbled80 r = false ->
  Forall (fun op => ~ reaches80 op) ops ->
  hasScrobbled80 (fst (run true ops r)) = false
  /\ completionReports (snd (run true ops r)) = [].
Proof.
  revert r. induction ops as [|op ops IH]; intros r Hflag Hall.
  - simpl. auto.
  - inversion Hall as [|? ? Hop Hrest]; subst.
    destruct (step_below80 op r Hflag Hop) as [Hf Hr].
    simpl. destruct (step true op r) as [r1 calls] eqn:Es. simpl in Hf, Hr.
    destruct (IH r1 Hf Hrest) as [Hf' Hr'].
    destruct (run true ops r1) as [r2 trace]. simpl in *.
    split; [exact Hf'|].
    unfold completionReports in *. simpl. rewrite Hr, Hr'. reflexivity.
Qed.

Lemma run_marked (token : bool) (ops : list Op) (r : Refs) :
  hasScrobbled80 r = true ->
  Forall (fun op => resets op = false) ops ->
  hasScrobbled80 (fst (run token ops r)) = true
  /\ completionReports (snd (run token ops r)) = [].
Proof.
  revert r. induction ops as [|op ops IH]; intros r Hflag Hall.
  - simpl. auto.
  - inversion Hall as [|? ? Hop Hrest]; subst.
    destruct (step_marked token op r Hflag Hop) as [Hf Hr].
    simpl. destruct (step token op r) as [r1 calls] eqn:Es. simpl in Hf, Hr.
    destruct (IH r1 Hf Hrest) as [Hf' Hr'].
    destruct (run token ops r1) as [r2 trace]. simpl in *.
    split; [exact Hf'|].
    unfold completionReports in *. simpl. rewrite Hr, Hr'. reflexivity.
Qed.

Lemma updateProgress_crossing (t d : Q) (r : Refs) :
  hasScrobbled80 r = false ->
  ~ d == 0 ->
  80 <= t / d * 100 ->
  updateProgress true t d r
  = (mkRefs (t / d * 100) (hasScrobbledStart r) true (isPlaying r),
     [mkCall stop (createScrobbleData (t / d * 100))]).
Proof.
  intros Hflag Hd Hp. unfold updateProgress. simpl.
  destruct (Qeq_bool d 0) eqn:Ed.
  - exfalso. apply Hd. apply Qeq_bool_iff. exact Ed.
  - apply Qgeb_ge in Hp. rewrite Hp, Hflag. reflexivity.
Qed.

Lemma createScrobbleData_in_range (p : Q) :
  0 <= p -> p <= 100 -> createScrobbleData p == p.
Proof.
  intros H0 H100. unfold createScrobbleData, Qminjs, Qmaxjs.
  destruct (Qltb 0 p) eqn:E0.
  - destruct (Qltb p 100) eqn:E1; [reflexivity|].
    apply Qltb_ge in E1. lra.
  - apply Qltb_ge in E0.
    destruct (Qltb 0 100) eqn:E1; [lra|]. apply Qltb_ge in E1. lra.
Qed.

(** C9. In a session with an access token whose refs start unmarked: if
    [pre] holds no progress update reaching 80 %, the update after it
    reaches 80 % with a non-zero duration, and [post] holds no reset
    ([resetScrobbleState], [onStop]), then over the whole session
    [updateProgress] makes exactly one call, a [stop] scrobble carrying
    that update's progress through [createScrobbleData] (the progress
    itself when it is at most 100), and the session ends marked.  From a
    marked session no sequence of operations without a reset, whatever the
    token, makes [updateProgress] report again, and a [scrobbleStop] call
    leaves the mark as it is. *)
Theorem completion_reported_once :
  (forall (pre post : list Op) (t d : Q) (r : Refs),
     hasScrobbled80 r = false ->
     Forall (fun op => ~ reaches80 op) pre ->
     ~ d == 0 ->
     80 <= t / d * 100 ->
     Forall (fun op => resets op = false) post ->
     let session := run true (pre ++ UpdateProgress t d :: post) r in
     completionReports (snd session)
     = [mkCall stop (createScrobbleData (t / d * 100))]
     /\ hasScrobbled80 (fst session) = true
     /\ hasScrobbled80 (fst (run true (pre ++ [UpdateProgress t d]) r)) = true
     /\ (t / d * 100 <= 100 -> createScrobbleData (t / d * 100) == t / d * 100))
  /\ (forall (token : bool) (ops : list Op) (r : Refs),
        hasScrobbled80 r = true ->
        Forall (fun op => resets op = false) ops ->
        completionReports (snd (run token ops r)) = []
        /\ hasScrobbled80 (fst (run token ops r)) = true)
  /\ (forall (token : bool) (p : Q) (r : Refs),
        hasScrobbled80 (fst (scrobbleStop token p r)) = hasScrobbled80 r
        /\ reportsOf (ScrobbleStop p, snd (scrobbleStop token p r)) = []).
Proof.
  split; [|split].
  - intros pre post t d r Hflag Hpre Hd Hp Hpost session.
    destruct (run_below80 pre r Hflag Hpre) as [Hf1 Hr1].
    assert (Hcross :
      forall rest, Forall (fun op => resets op = false) rest ->
        completionReports
          (snd (run true (pre ++ UpdateProgress t d :: rest) r))
        = [mkCall stop (createScrobbleData (t / d * 100))]
        /\ hasScrobbled80
             (fst (run true (pre ++ UpdateProgress t d :: rest) r)) = true).
    { intros rest Hrest. rewrite run_app. simpl.
      rewrite (updateProgress_crossing t d _ Hf1 Hd Hp).
      set (r1 := mkRefs _ _ true _).
      destruct (run_marked true rest r1 eq_refl Hrest) as [Hf2 Hr2].
      destruct (run true rest r1) as [r2 trace]. simpl in *.
      split; [|exact Hf2].
      rewrite completionReports_app, Hr1.
      unfold completionReports in *. simpl. rewrite Hr2. reflexivity. }
    split; [|split; [|split]].
    + apply (Hcross post Hpost).
    + apply (Hcross post Hpost).
    + apply (Hcross []). constructor.
    + intros H100. apply createScrobbleData_in_range; lra.
  - intros token ops r Hflag Hops.
    destruct (run_marked token ops r Hflag Hops) as [Hf Hr]. split; assumption.
  - intros token p r. unfold scrobbleStop. destruct token; simpl; auto.
Qed.

Lemma completion_reported_once_witness :
  completionReports
    (snd (run true (c9_session ++ UpdateProgress 960 1200 :: c9_rest) initialRefs))
  = [mkCall stop (createScrobbleData (960 / 1200 * 100))]
  /\ createScrobbleData (960 / 1200 * 100) == 80.
Proof.
  destruct completion_reported_once as (Hfirst & _ & _).
  destruct (Hfirst c9_session c9_rest 960 1200 initialRefs)
    as (Hreports & _ & _ & Hvalue).
  - reflexivity.
  - unfold c9_session. repeat constructor; simpl; try tauto.
    + intros [_ H]. apply H. reflexivity.
    + intros [_ H]. apply H. reflexivity.
  - discriminate.
  - discriminate.
  - unfold c9_rest. repeat constructor.
  - split; [exact Hreports|]. rewrite Hvalue; [reflexivity|discriminate].
Defined.

End Scrobble.

(** * Further properties *)

(** ** Rounding *)

(** Integers under [inject_Z] are atoms for linear arithmetic. *)
Ltac hide_inject :=
  change (inject_Z 1) with 1 in *;
  repeat match goal with
         | |- context [inject_Z ?z] =>
             lazymatch z with
             | Z0 => fail | Zpos _ => fail | Zneg _ => fail
             | _ => let q := fresh "q" in
                    set (q := inject_Z z) in *; clearbody q
             end
         | H : context [inject_Z ?z] |- _ =>
             lazymatch z with
             | Z0 => fail | Zpos _ => fail | Zneg _ => fail
             | _ => let q := fresh "q" in
                    set (q := inject_Z z) in *; clearbody q
             end
         end.

Lemma Qfloor_bounds (x : Q) :
  inject_Z (Qfloor x) <= x /\ x < inject_Z (Qfloor x) + 1.
Proof.
  split; [apply Qfloor_le|].
  pose proof (Qlt_floor x) as H. rewrite inject_Z_plus in H. exact H.
Qed.

Lemma Qfloor_unique (x : Q) (n : Z) :
  inject_Z n <= x -> x < inject_Z n + 1 -> Qfloor x = n.
Proof.
  intros Hle Hlt. destruct (Qfloor_bounds x) as [H1 H2].
  assert (Ha : (Qfloor x < n + 1)%Z).
  { rewrite Zlt_Qlt, inject_Z_plus. hide_inject. lra. }
  assert (Hb : (n < Qfloor x + 1)%Z).
  { rewrite Zlt_Qlt, inject_Z_plus. hide_inject. lra. }
  lia.
Qed.

(** Flooring after a division by a positive integer is integer division of
    the floor. *)
Lemma Qfloor_div (x : Q) (k : Z) :
  (0 < k)%Z -> Qfloor (x / inject_Z k) = (Qfloor x / k)%Z.
Proof.
  intros Hk. destruct (Qfloor_bounds x) as [Hlo Hhi].
  assert (Hkq : 0 < inject_Z k).
  { change 0 with (inject_Z 0). rewrite <- Zlt_Qlt. exact Hk. }
  apply Qfloor_unique.
  - apply Qle_shift_div_l; [exact Hkq|].
    rewrite <- inject_Z_mult.
    apply Qle_trans with (inject_Z (Qfloor x)); [|exact Hlo].
    rewrite <- Zle_Qle. pose proof (Z.mul_div_le (Qfloor x) k Hk). lia.
  - apply Qlt_shift_div_r; [exact Hkq|].
    assert (Hz : (Qfloor x + 1 <= (Qfloor x / k + 1) * k)%Z).
    { pose proof (Z.mod_pos_bound (Qfloor x) k Hk).
      pose proof (Z.div_mod (Qfloor x) k). nia. }
    rewrite Zle_Qle, inject_Z_plus, inject_Z_mult, inject_Z_plus in Hz.
    exact (Qlt_le_trans _ _ _ Hhi Hz).
Qed.

Lemma Qfloor_sub_Z (x : Q) (k : Z) :
  Qfloor (x - inject_Z k) = (Qfloor x - k)%Z.
Proof.
  destruct (Qfloor_bounds x) as [Hlo Hhi].
  apply Qfloor_unique; unfold Z.sub;
    rewrite inject_Z_plus, inject_Z_opp; hide_inject; lra.
Qed.

Lemma Math_round_Z (k : Z) : Math_round (inject_Z k) = k.
Proof.
  unfold Math_round. apply Qfloor_unique; hide_inject; lra.
Qed.

Lemma Math_round_between (x : Q) (a b : Z) :
  inject_Z a <= x -> x <= inject_Z b -> (a <= Math_round x <= b)%Z.
Proof.
  intros Ha Hb. unfold Math_round.
  destruct (Qfloor_bounds (x + (1 # 2))) as [Hlo Hhi]. split.
  - assert (H : (a < Qfloor (x + (1 # 2)) + 1)%Z).
    { rewrite Zlt_Qlt, inject_Z_plus. hide_inject. lra. }
    lia.
  - assert (H : (Qfloor (x + (1 # 2)) < b + 1)%Z).
    { rewrite Zlt_Qlt, inject_Z_plus. hide_inject. lra. }
    lia.
Qed.

Lemma Math_max_min_clamp (lo hi x : Q) :
  lo <= hi ->
  lo <= Math_max lo (Math_min hi x) /\ Math_max lo (Math_min hi x) <= hi
  /\ (lo <= x -> x <= hi -> Math_max lo (Math_min hi x) == x).
Proof.
  intros Hlh. unfold Math_max, Math_min.
  destruct (Qltb x hi) eqn:E1.
  - apply Qltb_lt in E1. destruct (Qltb lo x) eqn:E2.
    + apply Qltb_lt in E2. repeat split; lra.
    + apply Qltb_ge in E2. repeat split; lra.
  - apply Qltb_ge in E1. destruct (Qltb lo hi) eqn:E2.
    + apply Qltb_lt in E2. repeat split; lra.
    + apply Qltb_ge in E2. repeat split; lra.
Qed.

(** ** Player controls *)

Section ControlsProperties.
Import VideoPlayer Controls.

Lemma Math_trunc_nonneg (x : Q) : 0 <= x -> Math_trunc x = Qfloor x.
Proof.
  intros H. unfold Math_trunc. apply Qltb_ge in H. rewrite H. reflexivity.
Qed.

Lemma nonneg_div_pos (x : Q) (k : Z) : (0 < k)%Z -> 0 <= x -> 0 <= x / inject_Z k.
Proof.
  intros Hk Hx. apply Qle_shift_div_l.
  - change 0 with (inject_Z 0). rewrite <- Zlt_Qlt. exact Hk.
  - lra.
Qed.

(** [a % k] for [a >= 0] and a positive integer [k] lowers the floor of
    [a] to its remainder. *)
Lemma Qfloor_jsRem (a : Q) (k : Z) :
  (0 < k)%Z -> 0 <= a ->
  Qfloor (jsRem a (inject_Z k)) = (Qfloor a mod k)%Z
  /\ 0 <= jsRem a (inject_Z k).
Proof.
  intros Hk Ha. unfold jsRem.
  rewrite (Math_trunc_nonneg _ (nonneg_div_pos a k Hk Ha)), (Qfloor_div a k Hk).
  rewrite <- inject_Z_mult. split.
  - rewrite Qfloor_sub_Z. rewrite Z.mod_eq by lia. reflexivity.
  - destruct (Qfloor_bounds a) as [Hlo _].
    pose proof (Z.mul_div_le (Qfloor a) k Hk) as Hz.
    rewrite Zle_Qle in Hz. hide_inject. lra.
Qed.

Lemma two_digits_text (z : Z) :
  (0 <= z < 60)%Z ->
  CommunitySkipService.padStart0 2 (pretty z) = twoDigits z.
Proof.
  intros Hz.
  assert (Hall : forallb
                   (fun n => String.eqb
                      (CommunitySkipService.padStart0 2 (pretty (Z.of_nat n)))
                      (twoDigits (Z.of_nat n)))
                   (seq 0 60) = true) by (vm_compute; reflexivity).
  rewrite forallb_forall in Hall.
  specialize (Hall (Z.to_nat z)).
  rewrite Z2Nat.id in Hall by lia.
  apply String.eqb_eq, Hall, in_seq. lia.
Qed.

(** X1. The text [formatTime] prints for a non-negative number of seconds
    whose whole part is [n].  With [h = n / 3600], [m = (n mod 3600) / 60]
    and [s = n mod 60], so that [3600 h + 60 m + s = n] with minutes and
    seconds in 0..59: below one hour the text is the minutes in plain
    decimal, without padding, a colon and the two digits of the seconds
    (65 s prints as 1:05, not 01:05); from one hour on it is the hours in
    plain decimal, a colon, the two digits of the minutes, a colon and the
    two digits of the seconds. *)
Theorem formatTime_fields (seconds : Q) :
  0 <= seconds ->
  let n := Qfloor seconds in
  let h := (n / 3600)%Z in
  let m := ((n mod 3600) / 60)%Z in
  let s := (n mod 60)%Z in
  (0 <= h /\ 0 <= m < 60 /\ 0 <= s < 60 /\ 3600 * h + 60 * m + s = n)%Z
  /\ ((n < 3600)%Z ->
      formatTime seconds
      = String.append (pretty m) (String.append ":" (twoDigits s)))
  /\ ((3600 <= n)%Z ->
      formatTime seconds
      = String.append (pretty h)
          (String.append ":"
             (String.append (twoDigits m)
                (String.append ":" (twoDigits s))))).
Proof.
  intros Hs n h m s.
  assert (Hn : (0 <= n)%Z).
  { unfold n. rewrite <- (Qfloor_Z 0). apply Qfloor_resp_le. exact Hs. }
  assert (Hh : formatTime_hrs seconds = h).
  { unfold h, formatTime_hrs. change 3600 with (inject_Z 3600).
    apply Qfloor_div. lia. }
  assert (Hm : formatTime_mins seconds = m).
  { unfold m, formatTime_mins. change 60 with (inject_Z 60).
    change 3600 with (inject_Z 3600).
    rewrite Qfloor_div by lia.
    destruct (Qfloor_jsRem seconds 3600 ltac:(lia) Hs) as [-> _].
    reflexivity. }
  assert (Hsec : formatTime_secs seconds = s).
  { unfold s, formatTime_secs. change 60 with (inject_Z 60).
    destruct (Qfloor_jsRem seconds 60 ltac:(lia) Hs) as [-> _].
    reflexivity. }
  assert (Hbounds : (0 <= h /\ 0 <= m < 60 /\ 0 <= s < 60
                     /\ 3600 * h + 60 * m + s = n)%Z).
  { unfold h, m, s.
    pose proof (Z.div_mod n 3600 ltac:(lia)).
    pose proof (Z.mod_pos_bound n 3600 ltac:(lia)).
    pose proof (Z.div_mod (n mod 3600) 60 ltac:(lia)).
    pose proof (Z.mod_pos_bound (n mod 3600) 60 ltac:(lia)).
    pose proof (Z.mod_pos_bound n 60 ltac:(lia)).
    assert ((n mod 3600) mod 60 = n mod 60)%Z.
    { apply Z.mod_mod_divide. exists 60%Z. reflexivity. }
    pose proof (Z.div_pos n 3600). lia. }
  split; [exact Hbounds|].
  unfold formatTime. rewrite Hh, Hm, Hsec.
  rewrite (two_digits_text m) by lia. rewrite (two_digits_text s) by lia.
  split.
  - intros Hlt.
    assert (Hh0 : h = 0%Z) by (unfold h; apply Z.div_small; lia).
    rewrite Hh0. reflexivity.
  - intros Hge.
    assert (Hh1 : (0 <? h)%Z = true).
    { apply Z.ltb_lt. unfold h.
      pose proof (Z.div_le_mono 3600 n 3600 ltac:(lia) Hge) as Hdiv.
      rewrite Z.div_same in Hdiv by lia. lia. }
    rewrite Hh1. reflexivity.
Qed.

Lemma formatTime_fields_witness :
  formatTime 65 = "1:05"%string
  /\ formatTime (7325 # 2) = "1:01:02"%string.
Proof.
  split.
  - destruct (formatTime_fields 65) as (_ & Hlt & _); [discriminate|].
    rewrite Hlt by reflexivity. vm_compute. reflexivity.
  - destruct (formatTime_fields (7325 # 2)) as (_ & _ & Hge); [discriminate|].
    rewrite Hge by discriminate. vm_compute. reflexivity.
Defined.

(** Inverses of closed constants are computed, so that divisions by the
    source's constants become multiplications. *)
Ltac const_inv :=
  unfold Qdiv in *;
  repeat match goal with
         | |- context [/ ?c] =>
             is_ground c; let v := eval vm_compute in (/ c) in
             progress change (/ c) with v in *
         | H : context [/ ?c] |- _ =>
             is_ground c; let v := eval vm_compute in (/ c) in
             progress change (/ c) with v in *
         end.

Lemma Qle_bool_false (x y : Q) : Qle_bool x y = false <-> y < x.
Proof. exact (Qgeb_lt y x). Qed.

Lemma Math_round_eq (x : Q) (k : Z) : x == inject_Z k -> Math_round x = k.
Proof.
  intros H. unfold Math_round. apply Qfloor_unique; hide_inject; lra.
Qed.

Lemma inject_Z_between (a k b : Z) :
  (a <= k <= b)%Z -> inject_Z a <= inject_Z k /\ inject_Z k <= inject_Z b.
Proof. intros [H1 H2]. split; rewrite <- Zle_Qle; assumption. Qed.

Lemma speed_raw_bounds (value : Q) :
  0 <= value -> value <= 100 ->
  let speed :=
    if Qle_bool value 50 then
      MIN_SPEED + (value / 50) * (NORMAL_SPEED - MIN_SPEED)
    else
      NORMAL_SPEED + ((value - 50) / 50) * (MAX_SPEED - NORMAL_SPEED) in
  5 <= speed * 20 /\ speed * 20 <= 60.
Proof.
  intros H0 H100 speed. unfold speed, MIN_SPEED, NORMAL_SPEED, MAX_SPEED.
  destruct (Qle_bool value 50) eqn:E.
  - apply Qle_bool_iff in E. const_inv. split; lra.
  - apply Qle_bool_false in E. const_inv. split; lra.
Qed.

(** X2. For a slider value in 0..100 the speed set is a multiple of 0.05
    between 0.25 and 3; the ends and the middle of the slider give 0.25, 3
    and 1.  The slider value shown for such a speed lies in 0..100 and maps
    back to the same speed. *)
Theorem speed_slider_round_trip :
  (forall value : Q,
     0 <= value -> value <= 100 ->
     exists k : Z,
       (5 <= k <= 60)%Z
       /\ sliderValueToSpeed value = inject_Z k / 20
       /\ 1 # 4 <= sliderValueToSpeed value
       /\ sliderValueToSpeed value <= 3)
  /\ (sliderValueToSpeed 0 == 1 # 4 /\ sliderValueToSpeed 50 == 1
      /\ sliderValueToSpeed 100 == 3)
  /\ (forall k : Z,
        (5 <= k <= 60)%Z ->
        let speed := inject_Z k / 20 in
        0 <= speedToSliderValue speed
        /\ speedToSliderValue speed <= 100
        /\ sliderValueToSpeed (speedToSliderValue speed) = speed).
Proof.
  split; [|split].
  - intros value H0 H100.
    destruct (speed_raw_bounds value H0 H100) as [Hlo Hhi].
    unfold sliderValueToSpeed.
    set (speed := if Qle_bool value 50 then _ else _) in *.
    exists (Math_round (speed * 20)).
    pose proof (Math_round_between (speed * 20) 5 60 Hlo Hhi) as Hk.
    split; [exact Hk|]. split; [reflexivity|].
    apply inject_Z_between in Hk. destruct Hk as [Hk1 Hk2].
    change (inject_Z 5) with 5 in Hk1. change (inject_Z 60) with 60 in Hk2.
    const_inv. hide_inject. split; lra.
  - vm_compute. repeat split; reflexivity.
  - intros k Hk speed.
    pose proof (inject_Z_between 5 k 60 Hk) as [Hk1 Hk2].
    change (inject_Z 5) with 5 in Hk1. change (inject_Z 60) with 60 in Hk2.
    unfold speedToSliderValue, sliderValueToSpeed, speed,
      MIN_SPEED, NORMAL_SPEED, MAX_SPEED.
    destruct (Qle_bool (inject_Z k / 20) 1) eqn:E1.
    + apply Qle_bool_iff in E1.
      set (v := (inject_Z k / 20 - (1 # 4)) / (1 - (1 # 4)) * 50).
      assert (Hv : v == (inject_Z k * (1 # 20) - (1 # 4)) * (200 # 3)).
      { unfold v. const_inv. hide_inject. lra. }
      assert (Hv50 : Qle_bool v 50 = true).
      { apply Qle_bool_iff. rewrite Hv. const_inv. hide_inject. lra. }
      rewrite Hv50.
      assert (Hround : Math_round (((1 # 4) + v / 50 * (1 - (1 # 4))) * 20) = k).
      { apply Math_round_eq. const_inv. rewrite Hv. hide_inject. lra. }
      rewrite Hround.
      split; [|split; [|reflexivity]]; rewrite Hv; const_inv; hide_inject; lra.
    + apply Qle_bool_false in E1.
      set (v := 50 + (inject_Z k / 20 - 1) / (3 - 1) * 50).
      assert (Hv : v == 50 + (inject_Z k * (1 # 20) - 1) * 25).
      { unfold v. const_inv. hide_inject. lra. }
      assert (Hv50 : Qle_bool v 50 = false).
      { apply Qle_bool_false. rewrite Hv. const_inv. hide_inject. lra. }
      rewrite Hv50.
      assert (Hround : Math_round ((1 + (v - 50) / 50 * (3 - 1)) * 20) = k).
      { apply Math_round_eq. const_inv. rewrite Hv. hide_inject. lra. }
      rewrite Hround.
      split; [|split; [|reflexivity]]; rewrite Hv; const_inv; hide_inject; lra.
Qed.

Lemma speed_slider_round_trip_witness :
  sliderValueToSpeed (speedToSliderValue (inject_Z 35 / 20)) = inject_Z 35 / 20
  /\ exists k : Z, (5 <= k <= 60)%Z
                   /\ sliderValueToSpeed (123 # 4) = inject_Z k / 20.
Proof.
  destruct speed_slider_round_trip as (Hrange & _ & Hback). split.
  - apply (Hback 35%Z). split; discriminate.
  - destruct (Hrange (123 # 4)) as (k & Hk & Heq & _).
    + discriminate.
    + discriminate.
    + exists k. split; [exact Hk | exact Heq].
Defined.

(** X3. For a slider value in 0..100 the audio or subtitle delay set is a
    multiple of 50 ms between -5000 and 5000; the ends and the middle give
    -5000, 5000 and 0.  The slider value shown for such a delay lies in
    0..100 and maps back to the same delay. *)
Theorem delay_slider_round_trip :
  (forall value : Q,
     0 <= value -> value <= 100 ->
     exists k : Z,
       (-100 <= k <= 100)%Z
       /\ sliderValueToDelay value = inject_Z k * 50
       /\ -5000 <= sliderValueToDelay value
       /\ sliderValueToDelay value <= 5000)
  /\ (sliderValueToDelay 0 == -5000 /\ sliderValueToDelay 50 == 0
      /\ sliderValueToDelay 100 == 5000)
  /\ (forall k : Z,
        (-100 <= k <= 100)%Z ->
        let delay := inject_Z k * 50 in
        0 <= delayToSliderValue delay
        /\ delayToSliderValue delay <= 100
        /\ sliderValueToDelay (delayToSliderValue delay) = delay).
Proof.
  split; [|split].
  - intros value H0 H100. unfold sliderValueToDelay.
    set (delay := if Qle_bool value 50 then _ else _).
    assert (Hraw : -100 <= delay / 50 /\ delay / 50 <= 100).
    { unfold delay, MIN_DELAY, NORMAL_DELAY, MAX_DELAY.
      destruct (Qle_bool value 50) eqn:E.
      - apply Qle_bool_iff in E. const_inv. split; lra.
      - apply Qle_bool_false in E. const_inv. split; lra. }
    destruct Hraw as [Hlo Hhi].
    exists (Math_round (delay / 50)).
    pose proof (Math_round_between (delay / 50) (-100) 100 Hlo Hhi) as Hk.
    split; [exact Hk|]. split; [reflexivity|].
    apply inject_Z_between in Hk. destruct Hk as [Hk1 Hk2].
    change (inject_Z (-100)) with (-100) in Hk1.
    change (inject_Z 100) with 100 in Hk2.
    hide_inject. split; lra.
  - vm_compute. repeat split; reflexivity.
  - intros k Hk delay.
    pose proof (inject_Z_between (-100) k 100 Hk) as [Hk1 Hk2].
    change (inject_Z (-100)) with (-100) in Hk1.
    change (inject_Z 100) with 100 in Hk2.
    unfold delayToSliderValue, sliderValueToDelay, delay,
      MIN_DELAY, NORMAL_DELAY, MAX_DELAY.
    destruct (Qle_bool (inject_Z k * 50) 0) eqn:E1.
    + apply Qle_bool_iff in E1.
      set (v := (inject_Z k * 50 - -5000) / (0 - -5000) * 50).
      assert (Hv : v == (inject_Z k * 50 + 5000) * (1 # 100)).
      { unfold v. const_inv. hide_inject. lra. }
      assert (Hv50 : Qle_bool v 50 = true).
      { apply Qle_bool_iff. rewrite Hv. hide_inject. lra. }
      rewrite Hv50.
      assert (Hround : Math_round ((-5000 + v / 50 * (0 - -5000)) / 50) = k).
      { apply Math_round_eq. const_inv. rewrite Hv. hide_inject. lra. }
      rewrite Hround.
      split; [|split; [|reflexivity]]; rewrite Hv; hide_inject; lra.
    + apply Qle_bool_false in E1.
      set (v := 50 + (inject_Z k * 50 - 0) / (5000 - 0) * 50).
      assert (Hv : v == 50 + inject_Z k * (1 # 2)).
      { unfold v. const_inv. hide_inject. lra. }
      assert (Hv50 : Qle_bool v 50 = false).
      { apply Qle_bool_false. rewrite Hv. hide_inject. lra. }
      rewrite Hv50.
      assert (Hround : Math_round ((0 + (v - 50) / 50 * (5000 - 0)) / 50) = k).
      { apply Math_round_eq. const_inv. rewrite Hv. hide_inject. lra. }
      rewrite Hround.
      split; [|split; [|reflexivity]]; rewrite Hv; hide_inject; lra.
Qed.

Lemma delay_slider_round_trip_witness :
  sliderValueToDelay (delayToSliderValue (inject_Z (-7) * 50)) = inject_Z (-7) * 50
  /\ exists k : Z, (-100 <= k <= 100)%Z
                   /\ sliderValueToDelay (77 # 3) = inject_Z k * 50.
Proof.
  destruct delay_slider_round_trip as (Hrange & _ & Hback). split.
  - apply (Hback (-7)%Z). split; discriminate.
  - destruct (Hrange (77 # 3)) as (k & Hk & Heq & _).
    + discriminate.
    + discriminate.
    + exists k. split; [exact Hk | exact Heq].
Defined.

(** X4. [seekRelative] keeps the player inside the video and brings the
    controls up.  With a non-negative duration the new [player.currentTime]
    lies in [0, duration]; it is the target [currentTime + seconds] when
    that lies inside, 0 when the target is below 0 and the duration when
    the target is beyond it; of the component's skip state and the player
    nothing but the current time changes.  The call also shows the
    controls: they are visible, the fade runs to 1 and the hide timer is
    armed afresh, whatever timer was pending; the menus, the preview and
    the drag flag are as before.  When that timer fires, after a call made
    while playing the controls are hidden and the four menus are closed;
    after a call made while paused the controls stay up and the menus stay
    as they are. *)
Theorem seekRelative_clamps (seconds : Q) (s : Screen) :
  0 <= duration (component s) ->
  let c := component s in
  let o := overlay s in
  let target := currentTime (player c) + seconds in
  let c' := component (seekRelative seconds s) in
  let o' := overlay (seekRelative seconds s) in
  (0 <= currentTime (player c')
   /\ currentTime (player c') <= duration c
   /\ (0 <= target -> target <= duration c -> currentTime (player c') == target)
   /\ (target <= 0 -> currentTime (player c') == 0)
   /\ (duration c <= target -> currentTime (player c') == duration c)
   /\ c' = setPlayerCurrentTime (currentTime (player c')) c)
  /\ (controlsVisible o' = true
      /\ controlsOpacity o' = 1
      /\ hideControlsTimeout o' = Some (isPlaying o)
      /\ showSpeedSlider o' = showSpeedSlider o
      /\ showAudioDelay o' = showAudioDelay o
      /\ showSubtitleDelay o' = showSubtitleDelay o
      /\ showTrackSelection o' = showTrackSelection o
      /\ isPlaying o' = isPlaying o
      /\ isDraggingProgress o' = isDraggingProgress o
      /\ previewTime o' = previewTime o
      /\ previewPosition o' = previewPosition o)
  /\ (isPlaying o = true ->
      controlsVisible (hideTimerFires o') = false
      /\ controlsOpacity (hideTimerFires o') = 0
      /\ hideControlsTimeout (hideTimerFires o') = None
      /\ showSpeedSlider (hideTimerFires o') = false
      /\ showAudioDelay (hideTimerFires o') = false
      /\ showSubtitleDelay (hideTimerFires o') = false
      /\ showTrackSelection (hideTimerFires o') = false)
  /\ (isPlaying o = false ->
      controlsVisible (hideTimerFires o') = true
      /\ controlsOpacity (hideTimerFires o') = 1
      /\ hideControlsTimeout (hideTimerFires o') = None
      /\ showSpeedSlider (hideTimerFires o') = showSpeedSlider o
      /\ showAudioDelay (hideTimerFires o') = showAudioDelay o
      /\ showSubtitleDelay (hideTimerFires o') = showSubtitleDelay o
      /\ showTrackSelection (hideTimerFires o') = showTrackSelection o).
Proof.
  intros Hd c o target c' o'.
  destruct (Math_max_min_clamp 0 (duration c) target Hd) as (H1 & H2 & H3).
  split; [|split; [|split]].
  - change (currentTime (player c'))
      with (Math_max 0 (Math_min (duration c) target)).
    split; [exact H1|]. split; [exact H2|]. split; [exact H3|].
    split; [|split; [|reflexivity]].
    + intros Ht. unfold Math_max, Math_min.
      destruct (Qltb target (duration c)) eqn:E1.
      * destruct (Qltb 0 target) eqn:E2; [|reflexivity].
        apply Qltb_lt in E2. lra.
      * destruct (Qltb 0 (duration c)) eqn:E2; [|reflexivity].
        apply Qltb_lt in E2. apply Qltb_ge in E1. lra.
    + intros Ht. unfold Math_max, Math_min.
      destruct (Qltb target (duration c)) eqn:E1.
      * apply Qltb_lt in E1. lra.
      * destruct (Qltb 0 (duration c)) eqn:E2; [reflexivity|].
        apply Qltb_ge in E2. lra.
  - repeat split.
  - intros Hp. unfold o', seekRelative, hideTimerFires, showControls. simpl.
    fold o. rewrite Hp. repeat split.
  - intros Hp. unfold o', seekRelative, hideTimerFires, showControls. simpl.
    fold o. rewrite Hp. repeat split.
Qed.

Lemma seekRelative_clamps_witness :
  currentTime (player (component (seekRelative (-10) x_screen))) == 590
  /\ currentTime (player (component (seekRelative 700 x_screen))) == 1200
  /\ currentTime (player (component (seekRelative (-700) x_screen))) == 0
  /\ controlsVisible (overlay (seekRelative (-10) x_screen)) = true
  /\ showSpeedSlider (overlay (seekRelative (-10) x_screen)) = true
  /\ showSpeedSlider (hideTimerFires (overlay (seekRelative (-10) x_screen)))
     = false.
Proof.
  split; [|split; [|split; [|split; [|split]]]].
  - destruct (seekRelative_clamps (-10) x_screen) as ((_ & _ & H & _) & _).
    + discriminate.
    + apply H; discriminate.
  - destruct (seekRelative_clamps 700 x_screen)
      as ((_ & _ & _ & _ & H & _) & _).
    + discriminate.
    + apply H. discriminate.
  - destruct (seekRelative_clamps (-700) x_screen)
      as ((_ & _ & _ & H & _) & _).
    + discriminate.
    + apply H. discriminate.
  - destruct (seekRelative_clamps (-10) x_screen) as (_ & (H & _) & _).
    + discriminate.
    + exact H.
  - destruct (seekRelative_clamps (-10) x_screen)
      as (_ & (_ & _ & _ & H & _) & _).
    + discriminate.
    + exact H.
  - destruct (seekRelative_clamps (-10) x_screen)
      as (_ & _ & H & _).
    + discriminate.
    + destruct (H eq_refl) as (_ & _ & _ & H' & _). exact H'.
Defined.

(** X5. The progress slider on a loaded video (sampled duration above 0),
    moved to a value in 0..100.  The move always sets the preview: its time
    to that share of the duration and its position to the value.  While no
    drag is in progress the player and the component's skip state are
    untouched.  During a drag (after [handleProgressSliderStart]) the move
    also seeks the player, exactly to the previewed time, which lies in
    [0, duration] so that the clamp changes nothing; value 0 seeks to the
    start and value 100 to the end.  Ending the drag clears the drag flag,
    leaves the player where the last move put it and shows the controls.
    With a sampled duration of 0 a move changes nothing at all. *)
Theorem progress_slider_seeks (value : Q) (s : Screen) :
  0 < duration (component s) ->
  0 <= value -> value <= 100 ->
  let c := component s in
  let newTime := value / 100 * duration c in
  let moved := handleProgressChange value s in
  let dragged := handleProgressChange value (handleProgressSliderStart s) in
  let released := handleProgressSliderEnd dragged in
  (previewTime (overlay moved) = newTime
   /\ previewPosition (overlay moved) = value
   /\ (isDraggingProgress (overlay s) = false -> component moved = c))
  /\ (currentTime (player (component dragged)) == newTime
      /\ 0 <= newTime /\ newTime <= duration c
      /\ (value == 0 -> currentTime (player (component dragged)) == 0)
      /\ (value == 100 -> currentTime (player (component dragged)) == duration c)
      /\ component dragged
         = setPlayerCurrentTime (currentTime (player (component dragged))) c
      /\ previewTime (overlay dragged) = newTime
      /\ previewPosition (overlay dragged) = value
      /\ isDraggingProgress (overlay dragged) = true)
  /\ (isDraggingProgress (overlay released) = false
      /\ component released = component dragged
      /\ controlsVisible (overlay released) = true
      /\ previewTime (overlay released) = newTime
      /\ previewPosition (overlay released) = value)
  /\ (forall s0 : Screen,
        duration (component s0) == 0 -> handleProgressChange value s0 = s0).
Proof.
  intros Hd H0 H100 c newTime moved dragged released.
  assert (Hnz : Qeq_bool (duration c) 0 = false).
  { destruct (Qeq_bool (duration c) 0) eqn:E; [|reflexivity].
    apply Qeq_bool_iff in E. unfold c in E. lra. }
  assert (Hin : 0 <= newTime /\ newTime <= duration c).
  { unfold newTime, c. const_inv. split; nra. }
  destruct Hin as [Hin1 Hin2].
  destruct (Math_max_min_clamp 0 (duration c) newTime ltac:(unfold c; lra))
    as (_ & _ & Hclamp).
  specialize (Hclamp Hin1 Hin2).
  assert (Hmoved : overlay moved
                   = mkOverlay (controlsVisible (overlay s))
                       (controlsOpacity (overlay s))
                       (hideControlsTimeout (overlay s))
                       (showSpeedSlider (overlay s))
                       (showAudioDelay (overlay s))
                       (showSubtitleDelay (overlay s))
                       (showTrackSelection (overlay s))
                       (isPlaying (overlay s))
                       (isDraggingProgress (overlay s)) newTime value
                   /\ (isDraggingProgress (overlay s) = false ->
                       component moved = c)).
  { unfold moved, handleProgressChange. fold c. rewrite Hnz.
    destruct (isDraggingProgress (overlay s)); split;
      try reflexivity; discriminate. }
  assert (Hdragged : dragged
                     = mkScreen
                         (setPlayerCurrentTime
                            (Math_max 0 (Math_min (duration c) newTime)) c)
                         (mkOverlay (controlsVisible (overlay s))
                            (controlsOpacity (overlay s))
                            (hideControlsTimeout (overlay s))
                            (showSpeedSlider (overlay s))
                            (showAudioDelay (overlay s))
                            (showSubtitleDelay (overlay s))
                            (showTrackSelection (overlay s))
                            (isPlaying (overlay s)) true newTime value)).
  { unfold dragged, handleProgressChange, handleProgressSliderStart. simpl.
    fold c. rewrite Hnz. reflexivity. }
  split; [|split; [|split]].
  - destruct Hmoved as [-> Hc]. repeat split. exact Hc.
  - rewrite Hdragged. simpl.
    split; [exact Hclamp|]. split; [exact Hin1|]. split; [exact Hin2|].
    split; [|split; [|repeat split]].
    + intros Hv. rewrite Hclamp. unfold newTime. rewrite Hv. const_inv. lra.
    + intros Hv. rewrite Hclamp. unfold newTime. rewrite Hv. const_inv. lra.
  - unfold released. rewrite Hdragged. repeat split.
  - intros s0 H. unfold handleProgressChange.
    apply Qeq_bool_iff in H. rewrite H. reflexivity.
Qed.

Lemma progress_slider_seeks_witness :
  currentTime
    (player (component
               (handleProgressChange 25 (handleProgressSliderStart x_screen))))
  == 300
  /\ previewTime (overlay (handleProgressChange 25 x_screen)) = 25 / 100 * 1200
  /\ component (handleProgressChange 25 x_screen) = x_component.
Proof.
  destruct (progress_slider_seeks 25 x_screen)
    as ((Hprev & _ & Hsame) & (Hseek & _) & _).
  - reflexivity.
  - discriminate.
  - discriminate.
  - split; [|split].
    + rewrite Hseek. reflexivity.
    + exact Hprev.
    + apply Hsame. reflexivity.
Defined.

End ControlsProperties.

(** ** More on the resolution effect and the countdown *)

Section ResolutionMore.
Import VideoPlayer Controls.

Lemma manualFallback_asserted (c : Component) (m : SkipMarker) :
  manualFallback c = SetActiveSkipMarker (Some m) ->
  enabledManualSkip (skipSettings c) = true
  /\ ((manualIntroCondition c
       /\ m = mkSkipMarker intro 0 (manualIntroSkip c) manual)
      \/ (~ manualIntroCondition c /\ manualCreditsCondition c
          /\ 0 < duration c
          /\ m = mkSkipMarker credits (duration c - manualCreditsSkip c)
                   (duration c) manual)).
Proof.
  unfold manualFallback.
  destruct (enabledManualSkip (skipSettings c)); simpl; [|discriminate].
  destruct (Qltb 0 (manualIntroSkip c)) eqn:E1; simpl.
  - destruct (Qltb (currentPosition c) (manualIntroSkip c)) eqn:E2.
    + intros [= <-]. split; [reflexivity|]. left.
      apply Qltb_lt in E1. apply Qltb_lt in E2. repeat split; assumption.
    + assert (Hni : ~ manualIntroCondition c).
      { intros [_ H]. apply Qltb_ge in E2. lra. }
      destruct (Qltb 0 (manualCreditsSkip c)) eqn:E3; simpl.
      * destruct (Qltb 0 (duration c)) eqn:E4.
        -- destruct (Qgeb (currentPosition c)
                       (duration c - manualCreditsSkip c - 10)) eqn:E5; simpl.
           ++ destruct (Qltb (currentPosition c) (duration c - 5)) eqn:E6.
              ** intros [= <-]. split; [reflexivity|]. right.
                 apply Qltb_lt in E3. apply Qltb_lt in E4.
                 apply Qgeb_ge in E5. apply Qltb_lt in E6.
                 repeat split; assumption.
              ** destruct (activeTypeIs credits (activeSkipMarker c));
                   discriminate.
           ++ destruct (activeTypeIs credits (activeSkipMarker c));
                discriminate.
        -- destruct (activeTypeIs intro (activeSkipMarker c)); discriminate.
      * destruct (activeTypeIs intro (activeSkipMarker c)); discriminate.
  - assert (Hni : ~ manualIntroCondition c).
    { intros [H _]. apply Qltb_ge in E1. lra. }
    destruct (Qltb 0 (manualCreditsSkip c)) eqn:E3; simpl.
    + destruct (Qltb 0 (duration c)) eqn:E4.
      * destruct (Qgeb (currentPosition c)
                    (duration c - manualCreditsSkip c - 10)) eqn:E5; simpl.
        -- destruct (Qltb (currentPosition c) (duration c - 5)) eqn:E6.
           ++ intros [= <-]. split; [reflexivity|]. right.
              apply Qltb_lt in E3. apply Qltb_lt in E4.
              apply Qgeb_ge in E5. apply Qltb_lt in E6.
              repeat split; assumption.
           ++ destruct (activeTypeIs credits (activeSkipMarker c));
                discriminate.
        -- destruct (activeTypeIs credits (activeSkipMarker c)); discriminate.
      * destruct (activeTypeIs intro (activeSkipMarker c)); discriminate.
    + destruct (activeTypeIs intro (activeSkipMarker c)); discriminate.
Qed.

(** Every marker a tick asserts, with where it came from. *)
Lemma resolveUpdate_asserted (c : Component) (m : SkipMarker) :
  resolveUpdate c = SetActiveSkipMarker (Some m) ->
  ~ duration c == 0
  /\ currentPosition c < endTime m
  /\ ((enabledCommunitySkip (skipSettings c) = true
       /\ In m (communitySkipMarkers c)
       /\ activationWindow m (currentPosition c))
      \/ (enabledManualSkip (skipSettings c) = true
          /\ manualIntroCondition c
          /\ m = mkSkipMarker intro 0 (manualIntroSkip c) manual)
      \/ (enabledManualSkip (skipSettings c) = true
          /\ ~ manualIntroCondition c
          /\ manualCreditsCondition c
          /\ m = mkSkipMarker credits (duration c - manualCreditsSkip c)
                   (duration c) manual)).
Proof.
  unfold resolveUpdate.
  destruct (Qeq_bool (duration c) 0) eqn:Ed; [discriminate|].
  assert (Hd : ~ duration c == 0).
  { intros H. apply Qeq_bool_iff in H. congruence. }
  simpl.
  destruct (enabledCommunitySkip (skipSettings c)) eqn:Een; simpl.
  - destruct ((0 <? length (communitySkipMarkers c))%nat); simpl.
    + destruct (communityLoop (currentPosition c) (communitySkipMarkers c))
        as [m'|] eqn:Hloop.
      * intros [= ->]. apply communityLoop_Some in Hloop.
        destruct Hloop as (before & after & Heq & _ & Hw).
        split; [exact Hd|]. split.
        -- unfold activationWindow in Hw. destruct (type m); tauto.
        -- left. split; [reflexivity|]. split; [|exact Hw].
           rewrite Heq. apply in_or_app. right. left. reflexivity.
      * intros H. apply manualFallback_asserted in H.
        destruct H as (Hman & [(Hi & ->)|(Hni & Hc & Hdpos & ->)]).
        -- split; [exact Hd|]. split; [apply Hi|]. right. left. auto.
        -- split; [exact Hd|]. split.
           ++ simpl. destruct Hc as (_ & _ & H). lra.
           ++ right. right. auto.
    + intros H. apply manualFallback_asserted in H.
      destruct H as (Hman & [(Hi & ->)|(Hni & Hc & Hdpos & ->)]).
      * split; [exact Hd|]. split; [apply Hi|]. right. left. auto.
      * split; [exact Hd|]. split.
        -- simpl. destruct Hc as (_ & _ & H). lra.
        -- right. right. auto.
  - intros H. apply manualFallback_asserted in H.
    destruct H as (Hman & [(Hi & ->)|(Hni & Hc & Hdpos & ->)]).
    + split; [exact Hd|]. split; [apply Hi|]. right. left. auto.
    + split; [exact Hd|]. split.
      * simpl. destruct Hc as (_ & _ & H). lra.
      * right. right. auto.
Qed.

(** X6. Whatever marker a tick of the resolution effect asserts, a video
    is loaded, the marker ends strictly after the current position (a skip
    to its end moves forward), and the marker is either an element of the
    community list that is in its activation window, with community skip
    enabled, or one of the two synthetic manual markers with its condition
    holding and manual skip enabled. *)
Theorem asserted_marker_is_justified (c : Component) (m : SkipMarker) :
  resolveUpdate c = SetActiveSkipMarker (Some m) ->
  ~ duration c == 0
  /\ currentPosition c < endTime m
  /\ ((enabledCommunitySkip (skipSettings c) = true
       /\ In m (communitySkipMarkers c)
       /\ activationWindow m (currentPosition c))
      \/ (enabledManualSkip (skipSettings c) = true
          /\ manualIntroCondition c
          /\ m = mkSkipMarker intro 0 (manualIntroSkip c) manual)
      \/ (enabledManualSkip (skipSettings c) = true
          /\ ~ manualIntroCondition c
          /\ manualCreditsCondition c
          /\ m = mkSkipMarker credits (duration c - manualCreditsSkip c)
                   (duration c) manual)).
Proof. exact (resolveUpdate_asserted c m). Qed.

Lemma asserted_marker_is_justified_witness :
  currentPosition c1_component < endTime c1_marker_b
  /\ In c1_marker_b (communitySkipMarkers c1_component).
Proof.
  destruct (asserted_marker_is_justified c1_component c1_marker_b)
    as (_ & Hlt & [(_ & Hin & _)|[(_ & _ & Heq)|(_ & _ & _ & Heq)]]).
  - reflexivity.
  - split; assumption.
  - discriminate Heq.
  - discriminate Heq.
Defined.

(** A marker asserted by the resolution effect is asserted whatever the
    active marker and the player are: they matter only to the arms that
    clear a marker. *)
Lemma resolveUpdate_asserted_again (c : Component) (m : SkipMarker)
    (active : option SkipMarker) (countdown : option Z)
    (interval : option IntervalClosure) (p : Player) :
  resolveUpdate c = SetActiveSkipMarker (Some m) ->
  resolveUpdate
    (mkComponent (skipSettings c) (communitySkipMarkers c) (manualIntroSkip c)
       (manualCreditsSkip c) (currentPosition c) (duration c) active countdown
       interval p)
  = SetActiveSkipMarker (Some m).
Proof.
  unfold resolveUpdate, manualFallback. simpl.
  destruct (Qeq_bool (duration c) 0); [discriminate|].
  destruct (if enabledCommunitySkip (skipSettings c)
               && (0 <? length (communitySkipMarkers c))%nat
            then communityLoop (currentPosition c) (communitySkipMarkers c)
            else None); [intros H; exact H|].
  destruct (negb (enabledManualSkip (skipSettings c))); [discriminate|].
  destruct (Qltb 0 (manualIntroSkip c)
            && Qltb (currentPosition c) (manualIntroSkip c));
    [intros H; exact H|].
  destruct (Qltb 0 (manualCreditsSkip c) && Qltb 0 (duration c)).
  - destruct (Qgeb (currentPosition c)
                (duration c - manualCreditsSkip c - 10)
              && Qltb (currentPosition c) (duration c - 5));
      [intros H; exact H|].
    destruct (activeTypeIs credits (activeSkipMarker c)); discriminate.
  - destruct (activeTypeIs intro (activeSkipMarker c)); discriminate.
Qed.

(** X7. A skip is followed by the marker's return until the position is
    sampled again.  Let the resolution effect have asserted a marker for
    the sampled position.  [handleSkip] seeks to the marker's end and sets
    the active marker to null; this changes [activeSkipMarker?.type], so
    the effect runs again before the next position sample, on the position
    sampled before the seek, and asserts the same marker: it is the active
    marker again.  Only the tick after the next sample, which reads the
    marker's end, no longer asserts it. *)
Theorem skipped_marker_reasserted_until_sampled (c : Component)
    (m : SkipMarker) :
  resolveUpdate c = SetActiveSkipMarker (Some m) ->
  let c1 := handleSkip (resolve c) in
  (currentTime (player c1) = endTime m
   /\ activeSkipMarker c1 = None
   /\ currentPosition c1 = currentPosition c)
  /\ resolveUpdate c1 = SetActiveSkipMarker (Some m)
  /\ activeSkipMarker (resolve c1) = Some m
  /\ currentPosition (samplePosition (resolve c1)) = endTime m
  /\ resolveUpdate (samplePosition (resolve c1))
     <> SetActiveSkipMarker (Some m).
Proof.
  intros Hup c1.
  assert (Hc1 : c1 = mkComponent (skipSettings c) (communitySkipMarkers c)
                       (manualIntroSkip c) (manualCreditsSkip c)
                       (currentPosition c) (duration c) None
                       (autoSkipCountdown c) (autoSkipInterval c)
                       (mkPlayer (endTime m) (playerDuration (player c))
                          (playbackRate (player c)) (playing (player c))
                          (endTime m :: seeks (player c)))).
  { unfold c1, resolve. rewrite Hup. reflexivity. }
  assert (Hre : resolveUpdate c1 = SetActiveSkipMarker (Some m)).
  { rewrite Hc1. apply resolveUpdate_asserted_again. exact Hup. }
  split; [rewrite Hc1; repeat split|].
  split; [exact Hre|].
  assert (Hres : resolve c1 = setActiveSkipMarker (Some m) c1).
  { unfold resolve. rewrite Hre. reflexivity. }
  split; [rewrite Hres; reflexivity|].
  assert (Hpos : currentPosition (samplePosition (resolve c1)) = endTime m).
  { rewrite Hres, Hc1. reflexivity. }
  split; [exact Hpos|].
  intros H. apply resolveUpdate_asserted in H.
  destruct H as (_ & Hlt & _). rewrite Hpos in Hlt. lra.
Qed.

Lemma skipped_marker_reasserted_until_sampled_witness :
  activeSkipMarker (resolve (handleSkip (resolve c1_component)))
  = Some c1_marker_b.
Proof.
  destruct (skipped_marker_reasserted_until_sampled c1_component c1_marker_b)
    as (_ & _ & H & _).
  - reflexivity.
  - exact H.
Defined.

End ResolutionMore.

Section CountdownMore.
Import VideoPlayer Controls.

Lemma countdownEffect_started (c : Component) (m : SkipMarker) :
  activeSkipMarker c = Some m ->
  autoSkipEnabled (skipSettings c) = true ->
  countdownEffect c
  = setAutoSkipInterval (Some (mkIntervalClosure 3 (Some m)))
      (setAutoSkipCountdown (Some 3%Z) (setAutoSkipInterval None c)).
Proof.
  intros Hact Hauto. unfold countdownEffect, countdownBody, countdownCleanup.
  simpl. rewrite Hact, Hauto. reflexivity.
Qed.

Lemma countdownEffect_idle (c : Component) :
  activeSkipMarker c = None \/ autoSkipEnabled (skipSettings c) = false ->
  countdownEffect c = setAutoSkipCountdown None (setAutoSkipInterval None c).
Proof.
  intros H. unfold countdownEffect, countdownBody, countdownCleanup. simpl.
  destruct (activeSkipMarker c); [|reflexivity].
  destruct H as [H|H]; [discriminate|]. rewrite H. reflexivity.
Qed.

(** X8. When the countdown effect is re-run with the active marker null or
    auto-skip disabled, no countdown is displayed and no interval is live
    afterwards, the player and the active marker are untouched, and no
    later firing changes anything.  In particular, if the marker is cleared
    after fewer than three firings of a running countdown, the player has
    not been sought and never will be by that countdown. *)
Theorem countdown_cancelled_without_skip :
  (forall c : Component,
     activeSkipMarker c = None \/ autoSkipEnabled (skipSettings c) = false ->
     let c' := countdownEffect c in
     autoSkipCountdown c' = None
     /\ autoSkipInterval c' = None
     /\ player c' = player c
     /\ activeSkipMarker c' = activeSkipMarker c
     /\ forall k, intervalTicks k c' = c')
  /\ (forall (c : Component) (m : SkipMarker) (n : nat),
        activeSkipMarker c = Some m ->
        autoSkipEnabled (skipSettings c) = true ->
        (n < 3)%nat ->
        let c1 := intervalTicks n (countdownEffect c) in
        let c2 := countdownEffect (setActiveSkipMarker None c1) in
        player c1 = player c
        /\ forall k, player (intervalTicks k c2) = player c).
Proof.
  split.
  - intros c H c'. unfold c'. rewrite (countdownEffect_idle c H).
    repeat split. intros k. apply intervalTicks_idle. reflexivity.
  - intros c m n Hact Hauto Hn c1 c2.
    assert (H1 : player c1 = player c /\ player c2 = player c
                 /\ autoSkipInterval c2 = None).
    { unfold c2, c1. rewrite (countdownEffect_started c m Hact Hauto).
      destruct n as [|[|[|n]]]; [| | |lia]; repeat split. }
    destruct H1 as (Hp1 & Hp2 & Hi). split; [exact Hp1|].
    intros k. rewrite (intervalTicks_idle k c2 Hi). exact Hp2.
Qed.

Lemma countdown_cancelled_without_skip_witness :
  player (intervalTicks 5
            (countdownEffect
               (setActiveSkipMarker None
                  (intervalTicks 2 (countdownEffect c8_component)))))
  = player c8_component.
Proof.
  destruct countdown_cancelled_without_skip as [_ H].
  destruct (H c8_component c1_marker_b 2%nat) as [_ Hk].
  - reflexivity.
  - reflexivity.
  - apply le_n.
  - exact (Hk 5%nat).
Defined.

End CountdownMore.

(** ** More on the community skip service *)

Section AggregatorMore.
Import CommunitySkipService.

Lemma getProviderMarkers_shape (f : Fetch) (l : list SkipMarker) :
  getProviderMarkers f = Return l ->
  l = []
  \/ (exists s e, l = [mkSkipMarker intro s e fingerprint])
  \/ (exists s e, l = [mkSkipMarker credits s e fingerprint])
  \/ (exists s e s' e', l = [mkSkipMarker intro s e fingerprint;
                             mkSkipMarker credits s' e' fingerprint]).
Proof.
  destruct f as [|[] [data|]]; simpl; intros [= <-]; auto.
  destruct data as [[[[s|] [e|]]|] [[[s'|] [e'|]]|] ? ?];
    unfold convertToSkipMarkers; simpl; eauto 10.
Qed.

Lemma Forall_of_sublist (P : SkipMarker -> Prop) (l k : list SkipMarker) :
  l `sublist_of` k -> Forall P k -> Forall P l.
Proof.
  induction 1 as [|x l k _ IH|x l k _ IH]; intros H.
  - constructor.
  - inversion H; subst. constructor; auto.
  - inversion H; subst. auto.
Qed.

Lemma ForallOrdPairs_snoc (R : SkipMarker -> SkipMarker -> Prop)
    (l : list SkipMarker) (m : SkipMarker) :
  ForallOrdPairs R l -> Forall (fun a => R a m) l ->
  ForallOrdPairs R (l ++ [m]).
Proof.
  induction 1 as [|a l Ha Hl IH]; intros Hm; simpl.
  - constructor; constructor.
  - inversion Hm; subst. constructor.
    + apply Forall_app. split; [exact Ha|]. constructor; [assumption|constructor].
    + apply IH. assumption.
Qed.

Lemma exists_false_separated (kept : list SkipMarker) (m : SkipMarker) :
  exists_ kept m = false ->
  Forall (fun a => type a = type m ->
                   2 <= Qabs (startTime a - startTime m)) kept.
Proof.
  intros H. apply List.Forall_forall. intros a Hin Hty.
  destruct (Qlt_le_dec (Qabs (startTime a - startTime m)) 2) as [Hlt|Hge];
    [|exact Hge].
  exfalso.
  assert (Hcov : exists_ kept m = true).
  { apply exists_covered. exists a. repeat split; assumption. }
  congruence.
Qed.

(** The merge keeps a base list separated: same-typed markers at least
    2 seconds apart. *)
Lemma mergeMarkers_separated (second first : list SkipMarker) :
  ForallOrdPairs (fun a b => type a = type b ->
                             2 <= Qabs (startTime a - startTime b)) first ->
  ForallOrdPairs (fun a b => type a = type b ->
                             2 <= Qabs (startTime a - startTime b))
    (mergeMarkers first second).
Proof.
  revert first. induction second as [|m rest IH]; intros first Hfirst.
  - exact Hfirst.
  - rewrite mergeMarkers_cons.
    destruct (exists_ first m) eqn:E; simpl; apply IH; [exact Hfirst|].
    apply ForallOrdPairs_snoc; [exact Hfirst|].
    apply exists_false_separated. exact E.
Qed.

Lemma provider_list_facts (f : Fetch) (l : list SkipMarker) :
  getProviderMarkers f = Return l ->
  Forall (fun m => source m = fingerprint
                   /\ (type m = intro \/ type m = credits)) l
  /\ (length l <= 2)%nat
  /\ ForallOrdPairs (fun a b => type a = type b ->
                                2 <= Qabs (startTime a - startTime b)) l.
Proof.
  intros H. apply getProviderMarkers_shape in H.
  destruct H as [->|[(s & e & ->)|[(s & e & ->)|(s & e & s' & e' & ->)]]];
    (split; [repeat constructor; simpl; auto|]);
    (split; [simpl; lia|]);
    repeat constructor; simpl; discriminate.
Qed.

(** X11. What a lookup returns after asking the providers is well formed:
    every marker is sourced [fingerprint] and typed [intro] or [credits],
    there are at most four, and no two markers of one type start less than
    2 seconds apart. *)
Theorem fetched_markers_well_formed (imdbId : string) (season episode : N)
    (now now' : Z) (introHater stremio : Fetch) (svc : Service) :
  let key := episodeKey imdbId season episode in
  cacheHit (cache svc !! key) (lastFetchTime svc !! key) now = None ->
  exists merged,
    settled (getSkipMarkersForEpisode imdbId season episode now introHater
               stremio now' svc) = Return merged
    /\ Forall (fun m => source m = fingerprint
                        /\ (type m = intro \/ type m = credits)) merged
    /\ (length merged <= 4)%nat
    /\ ForallOrdPairs (fun a b => type a = type b ->
                                  2 <= Qabs (startTime a - startTime b))
         merged.
Proof.
  intros key Hmiss.
  destruct (getProviderMarkers_returns introHater) as [l1 H1].
  destruct (getProviderMarkers_returns stremio) as [l2 H2].
  exists (mergeMarkers l1 l2). split.
  { rewrite (getSkipMarkersForEpisode_fetch imdbId season episode now now'
               introHater stremio svc l1 l2 Hmiss H1 H2). reflexivity. }
  destruct (provider_list_facts introHater l1 H1) as (Hall1 & Hlen1 & Hsep1).
  destruct (provider_list_facts stremio l2 H2) as (Hall2 & Hlen2 & _).
  destruct (mergeMarkers_prefix l2 l1) as (kept & Heq & Hsub).
  split; [|split].
  - rewrite Heq. apply Forall_app. split; [exact Hall1|].
    exact (Forall_of_sublist _ kept l2 Hsub Hall2).
  - rewrite Heq, length_app. apply sublist_length in Hsub. lia.
  - apply mergeMarkers_separated. exact Hsep1.
Qed.

Lemma fetched_markers_well_formed_witness :
  exists merged,
    settled (getSkipMarkersForEpisode "tt0903747" 1 3 1700000000000
               c6_introHater c6_stremio 1700000000250 c6_service)
    = Return merged
    /\ (length merged <= 4)%nat.
Proof.
  destruct (fetched_markers_well_formed "tt0903747" 1 3 1700000000000
              1700000000250 c6_introHater c6_stremio c6_service)
    as (merged & Hres & _ & Hlen & _).
  - vm_compute. reflexivity.
  - exists merged. split; [exact Hres | exact Hlen].
Defined.

(** X12. A lookup that asked the providers is answered from the cache by
    the next lookup of the same episode made less than 24 h after the
    write (the write time being a non-zero [Date.now()]): that lookup
    settles to the same list, asks no provider, whatever the providers
    would answer now, and leaves the service as it is. *)
Theorem second_lookup_hits_cache (imdbId : string) (season episode : N)
    (now now' now2 now2' : Z) (introHater stremio introHater2 stremio2 : Fetch)
    (svc : Service) :
  let key := episodeKey imdbId season episode in
  cacheHit (cache svc !! key) (lastFetchTime svc !! key) now = None ->
  now' <> 0%Z ->
  (now2 - now' < cacheTTL)%Z ->
  let out1 :=
    getSkipMarkersForEpisode imdbId season episode now introHater stremio
      now' svc in
  let out2 :=
    getSkipMarkersForEpisode imdbId season episode now2 introHater2 stremio2
      now2' (service out1) in
  requests out1 = [IntroHater; Stremio]
  /\ settled out2 = settled out1
  /\ requests out2 = []
  /\ service out2 = service out1.
Proof.
  intros key Hmiss Hnz Hage out1 out2.
  destruct (getProviderMarkers_returns introHater) as [l1 H1].
  destruct (getProviderMarkers_returns stremio) as [l2 H2].
  assert (Hout1 : out1 = mkOutcome (Return (mergeMarkers l1 l2))
                           (mkService (<[key := mergeMarkers l1 l2]> (cache svc))
                                      (<[key := now']> (lastFetchTime svc)))
                           [IntroHater; Stremio]).
  { apply getSkipMarkersForEpisode_fetch; assumption. }
  assert (Hout2 : out2 = mkOutcome (Return (mergeMarkers l1 l2)) (service out1) []).
  { unfold out2, getSkipMarkersForEpisode. fold key. rewrite Hout1. simpl.
    rewrite !lookup_insert_eq. unfold cacheHit.
    apply Z.eqb_neq in Hnz. rewrite Hnz.
    apply Z.ltb_lt in Hage. rewrite Hage. reflexivity. }
  rewrite Hout2, Hout1. repeat split.
Qed.

Lemma second_lookup_hits_cache_witness :
  let out1 :=
    getSkipMarkersForEpisode "tt0903747" 1 3 1700000000000 c6_introHater
      c6_stremio 1700000000250 c6_service in
  let out2 :=
    getSkipMarkersForEpisode "tt0903747" 1 3 1700003600000 Rejects Rejects
      1700003600250 (service out1) in
  requests out1 = [IntroHater; Stremio]
  /\ settled out2 = settled out1
  /\ requests out2 = []
  /\ service out2 = service out1.
Proof.
  apply (second_lookup_hits_cache "tt0903747" 1 3 1700000000000 1700000000250
           1700003600000 1700003600250 c6_introHater c6_stremio Rejects
           Rejects c6_service).
  - vm_compute. reflexivity.
  - discriminate.
  - reflexivity.
Defined.


End AggregatorMore.

(** ** Episode keys *)

Section EpisodeKeys.
Import CommunitySkipService.
Close Scope Q_scope.

Lemma list_ascii_app (a b : string) : String.list_ascii_of_string (a +:+ b) = String.list_ascii_of_string a ++ String.list_ascii_of_string b.
Proof. induction a as [|c a IH]; simpl; [reflexivity|]. rewrite IH. reflexivity. Qed.

Lemma list_ascii_inj (a b : string) : String.list_ascii_of_string a = String.list_ascii_of_string b -> a = b.
Proof.
  intros H. rewrite <- (String.string_of_list_ascii_of_string a),
    <- (String.string_of_list_ascii_of_string b), H. reflexivity.
Qed.

Lemma list_ascii_length (a : string) : length (String.list_ascii_of_string a) = String.length a.
Proof. induction a; simpl; auto. Qed.

(** Splitting at the last occurrence of a separator. *)
Lemma split_last_sep (c : Stdlib.Strings.Ascii.ascii) (x y r1 r2 : list Stdlib.Strings.Ascii.ascii) :
  x ++ c :: r1 = y ++ c :: r2 -> c ∉ r1 -> c ∉ r2 -> x = y /\ r1 = r2.
Proof.
  revert y. induction x as [|a x IH]; intros [|b y] H H1 H2; simpl in H.
  - injection H as ->. auto.
  - injection H as <- ->. exfalso. apply H1.
    rewrite elem_of_app, elem_of_cons. auto.
  - injection H as -> <-. exfalso. apply H2.
    rewrite elem_of_app, elem_of_cons. auto.
  - injection H as <- H. destruct (IH y H H1 H2) as [-> ->]. auto.
Qed.

(** Splitting at the first occurrence of a separator. *)
Lemma split_first_sep (c : Stdlib.Strings.Ascii.ascii) (d1 d2 t1 t2 : list Stdlib.Strings.Ascii.ascii) :
  d1 ++ c :: t1 = d2 ++ c :: t2 -> c ∉ d1 -> c ∉ d2 -> d1 = d2 /\ t1 = t2.
Proof.
  revert d2. induction d1 as [|a d1 IH]; intros [|b d2] H H1 H2; simpl in H.
  - injection H as ->. auto.
  - injection H as <- _. exfalso. apply H2. apply elem_of_cons. auto.
  - injection H as -> _. exfalso. apply H1. apply elem_of_cons. auto.
  - injection H as <- H.
    destruct (IH d2 H) as [-> ->]; [| |auto].
    + intros Hin. apply H1. apply elem_of_cons. auto.
    + intros Hin. apply H2. apply elem_of_cons. auto.
Qed.

Lemma pretty_N_char_digit (x : N) : is_Some (Ascii.is_nat (pretty_N_char x)).
Proof. unfold pretty_N_char. repeat case_match; simpl; eauto. Qed.

Lemma pretty_N_go_digits (x : N) (s : string) :
  Forall (fun c => is_Some (Ascii.is_nat c)) (String.list_ascii_of_string s) ->
  Forall (fun c => is_Some (Ascii.is_nat c)) (String.list_ascii_of_string (pretty_N_go x s)).
Proof.
  revert s. induction (N.lt_wf_0 x) as [x _ IH]; intros s Hs.
  destruct (decide (x = 0)%N) as [->|Hx]; [exact Hs|].
  rewrite pretty_N_go_step by lia. apply IH.
  - apply N.div_lt; lia.
  - simpl. constructor; [apply pretty_N_char_digit|exact Hs].
Qed.

Lemma pretty_N_digits (x : N) :
  Forall (fun c => is_Some (Ascii.is_nat c)) (String.list_ascii_of_string (pretty x)).
Proof.
  unfold pretty, pretty_N. case_decide.
  - repeat constructor. simpl. eauto.
  - apply pretty_N_go_digits. constructor.
Qed.

Lemma pretty_N_go_length (x : N) (s : string) :
  String.length s <= String.length (pretty_N_go x s).
Proof.
  revert s. induction (N.lt_wf_0 x) as [x _ IH]; intros s.
  destruct (decide (x = 0)%N) as [->|Hx]; [reflexivity|].
  rewrite pretty_N_go_step by lia.
  etrans; [|apply IH; apply N.div_lt; lia]. simpl. lia.
Qed.

Lemma pretty_N_length_3 (x : N) : (100 <= x)%N -> 3 <= String.length (pretty x).
Proof.
  intros H. unfold pretty, pretty_N. case_decide; [lia|].
  rewrite pretty_N_go_step by lia.
  assert (0 < x `div` 10)%N by (apply N.div_str_pos; lia).
  rewrite pretty_N_go_step by lia.
  assert (0 < (x `div` 10) `div` 10)%N.
  { apply N.div_str_pos. split; [lia|]. apply N.div_le_lower_bound; lia. }
  rewrite pretty_N_go_step by lia.
  etrans; [|apply pretty_N_go_length]. simpl. lia.
Qed.

Lemma padStart0_long (s : string) : 2 <= String.length s -> padStart0 2 s = s.
Proof.
  intros H. unfold padStart0.
  replace (2 - String.length s) with 0 by lia. reflexivity.
Qed.

Lemma small_pads :
  forallb (fun a =>
    Nat.eqb (String.length (padStart0 2 (pretty (N.of_nat a)))) 2
    && forallb (fun b =>
         if String.eqb (padStart0 2 (pretty (N.of_nat a)))
                       (padStart0 2 (pretty (N.of_nat b)))
         then Nat.eqb a b else true) (seq 0 100)) (seq 0 100) = true.
Proof. vm_compute. reflexivity. Qed.

Lemma small_pad_facts (a : N) :
  (a < 100)%N ->
  String.length (padStart0 2 (pretty a)) = 2
  /\ forall b, (b < 100)%N -> padStart0 2 (pretty a) = padStart0 2 (pretty b) -> a = b.
Proof.
  intros Ha. pose proof small_pads as H. rewrite forallb_forall in H.
  specialize (H (N.to_nat a)). rewrite N2Nat.id in H.
  destruct (andb_prop _ _ (H ltac:(apply in_seq; lia))) as [H1 H2].
  split; [apply Nat.eqb_eq; exact H1|].
  intros b Hb Heq. rewrite forallb_forall in H2.
  specialize (H2 (N.to_nat b) ltac:(apply in_seq; lia)).
  rewrite N2Nat.id, Heq, String.eqb_refl in H2.
  apply Nat.eqb_eq in H2. lia.
Qed.

Lemma pad_pretty_inj (a b : N) :
  padStart0 2 (pretty a) = padStart0 2 (pretty b) -> a = b.
Proof.
  intros H.
  destruct (decide (a < 100)%N) as [Ha|Ha]; destruct (decide (b < 100)%N) as [Hb|Hb].
  - exact (proj2 (small_pad_facts a Ha) b Hb H).
  - exfalso. pose proof (proj1 (small_pad_facts a Ha)) as L.
    pose proof (pretty_N_length_3 b ltac:(lia)) as L3.
    rewrite H, padStart0_long in L by lia. lia.
  - exfalso. pose proof (proj1 (small_pad_facts b Hb)) as L.
    pose proof (pretty_N_length_3 a ltac:(lia)) as L3.
    rewrite <- H, padStart0_long in L by lia. lia.
  - pose proof (pretty_N_length_3 a ltac:(lia)).
    pose proof (pretty_N_length_3 b ltac:(lia)).
    rewrite !padStart0_long in H by lia. apply (inj pretty). exact H.
Qed.

Lemma pad_digits (a : N) :
  Forall (fun c => is_Some (Ascii.is_nat c)) (String.list_ascii_of_string (padStart0 2 (pretty a))).
Proof.
  unfold padStart0. rewrite list_ascii_app. apply Forall_app. split.
  - destruct (2 - String.length (pretty a)) as [|[|[|n]]] eqn:E; simpl;
      repeat constructor; simpl; eauto. lia.
  - apply pretty_N_digits.
Qed.

Lemma digits_exclude (c : Stdlib.Strings.Ascii.ascii) (l : list Stdlib.Strings.Ascii.ascii) :
  Ascii.is_nat c = None ->
  Forall (fun c => is_Some (Ascii.is_nat c)) l -> c ∉ l.
Proof.
  intros Hc Hl Hin. rewrite Forall_forall in Hl.
  destruct (Hl c Hin) as [n Hn]. congruence.
Qed.

Lemma episodeKey_inj (i1 : string) (s1 e1 : N) (i2 : string) (s2 e2 : N) :
  episodeKey i1 s1 e1 = episodeKey i2 s2 e2 -> i1 = i2 /\ s1 = s2 /\ e1 = e2.
Proof.
  intros H. apply (f_equal String.list_ascii_of_string) in H. unfold episodeKey in H.
  rewrite !list_ascii_app in H. simpl in H.
  pose proof (pad_digits s1) as Ds1. pose proof (pad_digits s2) as Ds2.
  pose proof (pad_digits e1) as De1. pose proof (pad_digits e2) as De2.
  set (S1 := String.list_ascii_of_string (padStart0 2 (pretty s1))) in *.
  set (S2 := String.list_ascii_of_string (padStart0 2 (pretty s2))) in *.
  set (E1 := String.list_ascii_of_string (padStart0 2 (pretty e1))) in *.
  set (E2 := String.list_ascii_of_string (padStart0 2 (pretty e2))) in *.
  apply split_last_sep in H.
  - destruct H as [Hi H]. injection H as H.
    apply split_first_sep in H.
    + destruct H as [HS HE].
      split; [apply list_ascii_inj; exact Hi|].
      split; apply pad_pretty_inj, list_ascii_inj; assumption.
    + apply digits_exclude; [reflexivity|exact Ds1].
    + apply digits_exclude; [reflexivity|exact Ds2].
  - intros Hin. apply elem_of_cons in Hin as [Hin|Hin]; [discriminate|].
    apply elem_of_app in Hin as [Hin|Hin].
    + revert Hin. apply digits_exclude; [reflexivity|exact Ds1].
    + apply elem_of_cons in Hin as [Hin|Hin]; [discriminate|].
      revert Hin. apply digits_exclude; [reflexivity|exact De1].
  - intros Hin. apply elem_of_cons in Hin as [Hin|Hin]; [discriminate|].
    apply elem_of_app in Hin as [Hin|Hin].
    + revert Hin. apply digits_exclude; [reflexivity|exact Ds2].
    + apply elem_of_cons in Hin as [Hin|Hin]; [discriminate|].
      revert Hin. apply digits_exclude; [reflexivity|exact De2].
Qed.

(** X14. Distinct episodes never share a cache entry: the episode key
    determines the IMDb id, the season and the episode.  Hence a lookup that
    asks the providers for one episode leaves the entry and the fetch time
    of every other episode as they were. *)
Theorem episodes_do_not_collide :
  (forall (i1 : string) (s1 e1 : N) (i2 : string) (s2 e2 : N),
     episodeKey i1 s1 e1 = episodeKey i2 s2 e2 ->
     i1 = i2 /\ s1 = s2 /\ e1 = e2)
  /\ (forall (i1 : string) (s1 e1 : N) (i2 : string) (s2 e2 : N)
             (now now' : Z) (introHater stremio : Fetch) (svc : Service),
        (i1, s1, e1) <> (i2, s2, e2) ->
        let out :=
          getSkipMarkersForEpisode i1 s1 e1 now introHater stremio now' svc in
        cache (service out) !! episodeKey i2 s2 e2
        = cache svc !! episodeKey i2 s2 e2
        /\ lastFetchTime (service out) !! episodeKey i2 s2 e2
           = lastFetchTime svc !! episodeKey i2 s2 e2).
Proof.
  split; [exact episodeKey_inj|].
  intros i1 s1 e1 i2 s2 e2 now now' introHater stremio svc Hne out.
  assert (Hkey : episodeKey i1 s1 e1 <> episodeKey i2 s2 e2).
  { intros H. apply episodeKey_inj in H. destruct H as (-> & -> & ->).
    apply Hne. reflexivity. }
  unfold out, getSkipMarkersForEpisode.
  destruct (cacheHit (cache svc !! episodeKey i1 s1 e1)
              (lastFetchTime svc !! episodeKey i1 s1 e1) now) as [markers|].
  - simpl. split; reflexivity.
  - destruct (getProviderMarkers_returns introHater) as [l1 H1].
    destruct (getProviderMarkers_returns stremio) as [l2 H2].
    change (getIntroHaterMarkers introHater = Return l1) in H1.
    change (getStremioSkipMarkers stremio = Return l2) in H2.
    rewrite H1, H2. simpl.
    split; apply lookup_insert_ne; exact Hkey.
Qed.

Lemma episodes_do_not_collide_witness :
  episodeKey "tt0903747" 1 2 <> episodeKey "tt0903747" 12 1
  /\ cache (service (getSkipMarkersForEpisode "tt0903747" 1 3 1700000000000
                       c6_introHater c6_stremio 1700000000250 c6_service))
       !! episodeKey "tt0903747" 1 2
     = Some [c5_first].
Proof.
  destruct episodes_do_not_collide as [Hinj Hiso]. split.
  - intros H. apply Hinj in H. destruct H as (_ & H & _). discriminate H.
  - destruct (Hiso "tt0903747" 1%N 3%N "tt0903747" 1%N 2%N 1700000000000%Z
                1700000000250%Z c6_introHater c6_stremio c6_service)
      as [Hc _].
    + intros H. discriminate H.
    + rewrite Hc. vm_compute. reflexivity.
Defined.

End EpisodeKeys.

(** ** More on the scrobble hook *)

Section ScrobbleMore.
Import UseTrakt.

Lemma createScrobbleData_bounds (p : Q) :
  0 <= createScrobbleData p /\ createScrobbleData p <= 100.
Proof.
  unfold createScrobbleData, Qminjs, Qmaxjs.
  destruct (Qltb 0 p) eqn:E0.
  - apply Qltb_lt in E0. destruct (Qltb p 100) eqn:E1.
    + apply Qltb_lt in E1. lra.
    + lra.
  - destruct (Qltb 0 100) eqn:E1; lra.
Qed.

(** X15. Whatever the operation, the refs and the token, every scrobble
    call the hook makes carries a progress between 0 and 100. *)
Theorem scrobble_progress_in_range (token : bool) (op : Op) (r : Refs) :
  Forall (fun call => 0 <= progress call /\ progress call <= 100)
    (snd (step token op r)).
Proof.
  destruct op as [success|p|p|t d|success| | |]; simpl.
  - unfold scrobbleStart.
    destruct token, (hasScrobbledStart r); simpl; repeat constructor;
      apply createScrobbleData_bounds.
  - unfold scrobblePause.
    destruct token, (isPlaying r); simpl; repeat constructor;
      apply createScrobbleData_bounds.
  - unfold scrobbleStop.
    destruct token; simpl; repeat constructor; apply createScrobbleData_bounds.
  - unfold updateProgress.
    destruct (negb token || Qeq_bool d 0); simpl; [constructor|].
    destruct (Qgeb (t / d * 100) 80 && negb (hasScrobbled80 r)); simpl;
      repeat constructor; apply createScrobbleData_bounds.
  - unfold onPlay, scrobbleStart.
    destruct token, (hasScrobbledStart r), (isPlaying r); simpl;
      repeat constructor; apply createScrobbleData_bounds.
  - unfold onPause, scrobblePause.
    destruct token, (isPlaying r); simpl; repeat constructor;
      apply createScrobbleData_bounds.
  - unfold onStop, scrobbleStop.
    destruct token; simpl; repeat constructor; apply createScrobbleData_bounds.
  - constructor.
Qed.

(** X16. Without an access token a session that starts from the initial
    refs makes no scrobble call at all and leaves the refs as they were,
    whatever operations it performs. *)
Theorem no_token_no_calls (ops : list Op) :
  run false ops initialRefs = (initialRefs, map (fun op => (op, [])) ops).
Proof.
  induction ops as [|op ops IH]; simpl; [reflexivity|].
  assert (Hstep : step false op initialRefs = (initialRefs, [])).
  { destruct op; reflexivity. }
  rewrite Hstep, IH. reflexivity.
Qed.

(** Case analysis on every test of a hook operation. *)
Ltac hook_cases :=
  repeat (simpl;
          match goal with
          | |- context [if ?b then _ else _] => destruct b eqn:?
          end);
  simpl.

Lemma step_playing (token : bool) (op : Op) (r : Refs) :
  isPlaying (fst (step token op r)) = true ->
  isPlaying r = true
  \/ exists q, In (mkCall start q) (snd (step token op r)).
Proof.
  destruct op as [success|p|p|t d|success| | |];
    unfold step, onPlay, onPause, onStop, scrobbleStart, scrobblePause,
      scrobbleStop, updateProgress, resetScrobbleState;
    hook_cases; intros H;
    first [ left; congruence
          | right; eexists; left; reflexivity ].
Qed.

Lemma run_playing (token : bool) (ops : list Op) (r : Refs) :
  isPlaying (fst (run token ops r)) = true ->
  isPlaying r = true
  \/ exists e q, In e (snd (run token ops r)) /\ In (mkCall start q) (snd e).
Proof.
  revert r. induction ops as [|op ops IH]; intros r; simpl; [auto|].
  destruct (step token op r) as [r1 calls] eqn:Es.
  specialize (IH r1). destruct (run token ops r1) as [r2 trace]. simpl in *.
  intros H. destruct (IH H) as [Hp|(e & q & Hin & Hq)].
  - pose proof (step_playing token op r) as Hstep. rewrite Es in Hstep.
    simpl in Hstep. destruct (Hstep Hp) as [Hr|[q Hq]]; [auto|].
    right. exists (op, calls), q. split; [left; reflexivity|exact Hq].
  - right. exists e, q. split; [right; exact Hin|exact Hq].
Qed.

Lemma step_pause_playing (token : bool) (op : Op) (r : Refs) (q : Q) :
  In (mkCall pause q) (snd (step token op r)) -> isPlaying r = true.
Proof.
  destruct op as [success|p|p|t d|success| | |];
    unfold step, onPlay, onPause, onStop, scrobbleStart, scrobblePause,
      scrobbleStop, updateProgress, resetScrobbleState;
    hook_cases; intros H;
    repeat match goal with
           | H : _ \/ _ |- _ => destruct H
           | H : False |- _ => destruct H
           | H : mkCall _ _ = mkCall _ _ |- _ => try discriminate H; clear H
           end;
    try congruence;
    match goal with
    | H : negb ?b = false |- ?b = true => destruct b; [reflexivity|discriminate H]
    end.
Qed.

(** X17. A pause is only ever sent after a start: if, in a session that
    began with the initial refs, an operation makes a [pause] call, then an
    earlier operation of the session made a [start] call.  And a pause is
    not repeated: right after [onPause], another [onPause] sends nothing. *)
Theorem pause_only_after_start :
  (forall (token : bool) (earlier : list Op) (op : Op) (q : Q),
     In (mkCall pause q)
        (snd (step token op (fst (run token earlier initialRefs)))) ->
     exists e q', In e (snd (run token earlier initialRefs))
                  /\ In (mkCall start q') (snd e))
  /\ (forall (token : bool) (r : Refs),
        snd (onPause token (fst (onPause token r))) = []).
Proof.
  split.
  - intros token earlier op q Hq.
    apply step_pause_playing in Hq.
    destruct (run_playing token earlier initialRefs Hq) as [H|H];
      [discriminate H|exact H].
  - intros token r. unfold onPause, scrobblePause.
    destruct token; simpl; [|reflexivity].
    destruct (isPlaying r) eqn:E; simpl; [reflexivity|].
    rewrite E. reflexivity.
Qed.

Lemma pause_only_after_start_witness :
  exists e q', In e (snd (run true [OnPlay true; UpdateProgress 300 1200]
                            initialRefs))
               /\ In (mkCall start q') (snd e).
Proof.
  apply (proj1 pause_only_after_start true
           [OnPlay true; UpdateProgress 300 1200] OnPause
           (createScrobbleData (300 / 1200 * 100))).
  vm_compute. left. reflexivity.
Defined.

(** X18. [onStop] ends the session.  With a token it sends exactly one
    [stop] carrying the last progress and puts every ref back to its initial
    value, so the first progress update of the next session that reaches
    80 % is reported again even if the ended session had already reported.
    Without a token it sends nothing and still clears the start and
    completion marks. *)
Theorem onStop_ends_session :
  (forall r : Refs,
     onStop true r
     = (initialRefs, [mkCall stop (createScrobbleData (lastProgress r))]))
  /\ (forall (r : Refs) (t d : Q),
        ~ d == 0 -> 80 <= t / d * 100 ->
        completionReports (snd (run true [OnStop; UpdateProgress t d] r))
        = [mkCall stop (createScrobbleData (t / d * 100))])
  /\ (forall r : Refs,
        onStop false r = (mkRefs 0 false false (isPlaying r), [])).
Proof.
  split; [|split].
  - intros r. reflexivity.
  - intros r t d Hd Hp. cbn [run step].
    change (onStop true r)
      with (initialRefs, [mkCall stop (createScrobbleData (lastProgress r))]).
    cbv beta iota.
    rewrite (updateProgress_crossing t d initialRefs eq_refl Hd Hp).
    reflexivity.
  - intros r. reflexivity.
Qed.

Lemma onStop_ends_session_witness :
  completionReports
    (snd (run true [OnStop; UpdateProgress 1000 1200]
            (mkRefs 90 true true true)))
  = [mkCall stop (createScrobbleData (1000 / 1200 * 100))].
Proof.
  apply (proj1 (proj2 onStop_ends_session)); discriminate.
Defined.

Lemma step_started (token : bool) (op : Op) (r : Refs) :
  hasScrobbledStart r = true ->
  resets op = false ->
  hasScrobbledStart (fst (step token op r)) = true
  /\ match op with
     | ScrobbleStart _ => snd (step token op r) = []
     | OnPlay _ =>
         snd (step token op r)
         = if isPlaying r then []
           else [mkCall start (createScrobbleData (lastProgress r))]
     | _ => True
     end.
Proof.
  intros Hs Hop.
  destruct op as [success|p|p|t d|success| | |]; try discriminate Hop;
    unfold step, onPlay, onPause, scrobbleStart, scrobblePause,
      scrobbleStop, updateProgress;
    rewrite ?Hs; hook_cases; rewrite ?Hs; auto;
    simpl in *; congruence.
Qed.

(** X19. Once a start has been acknowledged, the session does not start
    afresh: until a reset, [scrobbleStart] sends nothing; [onPlay] sends
    nothing while playing and, after a pause, a [start] that carries the
    last progress (a resume), not 0. *)
Theorem started_session_resumes (token : bool) (ops : list Op) (r : Refs) :
  hasScrobbledStart r = true ->
  Forall (fun op => resets op = false) ops ->
  hasScrobbledStart (fst (run token ops r)) = true
  /\ Forall (fun e => match fst e with
                      | ScrobbleStart _ => snd e = []
                      | OnPlay _ =>
                          snd e = []
                          \/ exists q, 0 <= q /\ q <= 100
                                       /\ snd e = [mkCall start q]
                      | _ => True
                      end) (snd (run token ops r))
  /\ (forall success,
        snd (onPlay token success r)
        = if isPlaying r then []
          else [mkCall start (createScrobbleData (lastProgress r))]).
Proof.
  intros Hs Hops. split; [|split].
  - revert r Hs. induction Hops as [|op ops Hop _ IH]; intros r Hs;
      simpl; [exact Hs|].
    destruct (step_started token op r Hs Hop) as [Hs1 _].
    destruct (step token op r) as [r1 calls]. simpl in Hs1.
    specialize (IH r1 Hs1). destruct (run token ops r1). exact IH.
  - revert r Hs. induction Hops as [|op ops Hop _ IH]; intros r Hs;
      simpl; [constructor|].
    destruct (step_started token op r Hs Hop) as [Hs1 Hcalls].
    destruct (step token op r) as [r1 calls]. simpl in Hs1, Hcalls.
    specialize (IH r1 Hs1). destruct (run token ops r1) as [r2 trace].
    simpl in *. constructor; [|exact IH]. simpl.
    destruct op; auto. rewrite Hcalls.
    destruct (isPlaying r); [left; reflexivity|].
    right. exists (createScrobbleData (lastProgress r)).
    destruct (createScrobbleData_bounds (lastProgress r)). auto.
  - intros success.
    exact (proj2 (step_started token (OnPlay success) r Hs eq_refl)).
Qed.

Lemma started_session_resumes_witness :
  snd (onPlay true true (mkRefs 40 true false false))
  = [mkCall start (createScrobbleData 40)].
Proof.
  apply (started_session_resumes true [] (mkRefs 40 true false false)).
  - reflexivity.
  - constructor.
Defined.

End ScrobbleMore.

(** ** The Trakt client *)

Section TraktClient.
Import TraktService.

(** X20. The client posts a scrobble only with a valid token.  If it
    resolves to [true], the scrobble request was sent and answered with an
    [ok] status.  If a scrobble request was sent, there was an access
    token, and either the token was not within 60 s of its expiry and the
    credentials are untouched, or a refresh was requested first and
    succeeded; after a successful refresh the credentials hold the new
    tokens, expire at [(created_at + expires_in) * 1000], and it is the new
    access token that the request carries. *)
Theorem scrobble_needs_valid_token (action : UseTrakt.ScrobbleAction)
    (progress : Q) (creds : option TraktCredentials) (now : Z)
    (refresh : Http TokenResponse) (post : Http unit) :
  let res := scrobble action progress creds now refresh post in
  (value res = true ->
   (exists json, post = NetResponds true json)
   /\ In (ScrobbleRequest action (authorization (credentials res)) progress)
        (sent res))
  /\ (forall a auth p,
        In (ScrobbleRequest a auth p) (sent res) ->
        a = action /\ p = progress /\ auth = authorization (credentials res)
        /\ exists c token,
             creds = Some c
             /\ truthyString (accessToken c) = Some token
             /\ ((credentials res = creds
                  /\ sent res = [ScrobbleRequest action (Some token) progress]
                  /\ (truthyNumber (expiresAt c) = None
                      \/ exists e, truthyNumber (expiresAt c) = Some e
                                   /\ (now < e - 60000)%Z))
                 \/ (exists e rt td,
                       truthyNumber (expiresAt c) = Some e
                       /\ (e - 60000 <= now)%Z
                       /\ truthyString (refreshToken c) = Some rt
                       /\ refresh = NetResponds true (Some td)
                       /\ credentials res
                          = Some (mkTraktCredentials
                                    (Some (access_token td))
                                    (Some (refresh_token td))
                                    (Some ((created_at td + expires_in td)
                                           * 1000)%Z)
                                    (username c))
                       /\ sent res
                          = [RefreshRequest rt;
                             ScrobbleRequest action
                               (truthyString (Some (access_token td)))
                               progress])))
  /\ (authorization creds = None -> res = mkResult false creds []).
Proof.
  intros res. unfold res, scrobble, ensureValidToken, refreshAccessToken,
    authorization.
  destruct creds as [c|]; simpl.
  2:{ split; [discriminate|]. split; [intros ? ? ? []|reflexivity]. }
  destruct (truthyString (accessToken c)) as [token|] eqn:Etok; simpl.
  2:{ split; [discriminate|]. split; [intros ? ? ? []|reflexivity]. }
  split; [|split; [|discriminate]].
  - destruct (truthyNumber (expiresAt c)) as [e|]; simpl.
    + destruct (e - 60000 <=? now)%Z; simpl.
      * destruct (truthyString (refreshToken c)) as [rt|]; simpl;
          [|discriminate].
        destruct refresh as [|[] [td|]]; simpl; try discriminate.
        destruct post as [|[] json]; simpl; try discriminate.
        intros _. split; [eexists; reflexivity|]. right. left. reflexivity.
      * destruct post as [|[] json]; simpl; try discriminate.
        intros _. split; [eexists; reflexivity|]. left.
        rewrite Etok. reflexivity.
    + destruct post as [|[] json]; simpl; try discriminate.
      intros _. split; [eexists; reflexivity|]. left.
      rewrite Etok. reflexivity.
  - intros a auth p.
    destruct (truthyNumber (expiresAt c)) as [e|] eqn:Ee; simpl.
    + destruct (e - 60000 <=? now)%Z eqn:Ecmp; simpl.
      * destruct (truthyString (refreshToken c)) as [rt|] eqn:Ert; simpl;
          [|intros []].
        destruct refresh as [|[] [td|]]; simpl;
          try (intros [H|[]]; discriminate H).
        assert (Hin :
          In (ScrobbleRequest a auth p)
            [RefreshRequest rt;
             ScrobbleRequest action (truthyString (Some (access_token td)))
               progress] ->
          a = action /\ p = progress
          /\ auth = truthyString (Some (access_token td))).
        { intros [H|[H|[]]]; [discriminate H|]. injection H as <- <- <-.
          auto. }
        destruct post as [|ok json]; simpl; intros H;
          destruct (Hin H) as (-> & -> & ->);
          (split; [reflexivity|]); (split; [reflexivity|]);
          (split; [reflexivity|]);
          exists c, token; (split; [reflexivity|]); (split; [exact Etok|]);
          right; exists e, rt, td; apply Z.leb_le in Ecmp;
          repeat split; auto.
      * assert (Hin :
          In (ScrobbleRequest a auth p)
            [ScrobbleRequest action (truthyString (accessToken c)) progress] ->
          a = action /\ p = progress /\ auth = truthyString (accessToken c)).
        { intros [H|[]]. injection H as <- <- <-. auto. }
        destruct post as [|ok json]; simpl; intros H;
          destruct (Hin H) as (-> & -> & ->);
          (split; [reflexivity|]); (split; [reflexivity|]);
          (split; [reflexivity|]);
          exists c, token; (split; [reflexivity|]); (split; [exact Etok|]);
          left; rewrite Etok; apply Z.leb_gt in Ecmp;
          (split; [reflexivity|]); (split; [reflexivity|]);
          right; exists e; auto.
    + assert (Hin :
        In (ScrobbleRequest a auth p)
          [ScrobbleRequest action (truthyString (accessToken c)) progress] ->
        a = action /\ p = progress /\ auth = truthyString (accessToken c)).
      { intros [H|[]]. injection H as <- <- <-. auto. }
      destruct post as [|ok json]; simpl; intros H;
        destruct (Hin H) as (-> & -> & ->);
        (split; [reflexivity|]); (split; [reflexivity|]);
        (split; [reflexivity|]);
        exists c, token; (split; [reflexivity|]); (split; [exact Etok|]);
        left; rewrite Etok; auto.
Qed.

Lemma scrobble_needs_valid_token_witness :
  let res :=
    scrobble UseTrakt.pause 25 (Some x_credentials) 1700000030000
      (NetResponds true (Some x_tokenResponse)) (NetResponds true None) in
  (exists json, @NetResponds unit true None = NetResponds true json)
  /\ In (ScrobbleRequest UseTrakt.pause (authorization (credentials res)) 25)
       (sent res).
Proof.
  apply (scrobble_needs_valid_token UseTrakt.pause 25 (Some x_credentials)
           1700000030000 (NetResponds true (Some x_tokenResponse))
           (NetResponds true None)).
  reflexivity.
Defined.

End TraktClient.

(** ** The clock overlay *)

Section Clock.
Import TimeDisplay.

Lemma clock_table :
  forallb (fun n =>
             let h := N.of_nat n in
             (1 <=? hours12 h)%N && (hours12 h <=? 12)%N
             && (h =? hours12 h mod 12
                      + (if String.eqb (ampm h) "PM" then 12 else 0))%N)
    (seq 0 24) = true.
Proof. vm_compute. reflexivity. Qed.

Lemma clock_fields (h : N) :
  (h < 24)%N ->
  (1 <= hours12 h)%N /\ (hours12 h <= 12)%N
  /\ h = (hours12 h mod 12 + (if String.eqb (ampm h) "PM" then 12 else 0))%N.
Proof.
  intros Hh. pose proof clock_table as H. rewrite forallb_forall in H.
  specialize (H (N.to_nat h)). rewrite N2Nat.id in H.
  assert (Hin : In (N.to_nat h) (seq 0 24)) by (apply in_seq; lia).
  apply H in Hin. apply andb_prop in Hin as [Hin H3].
  apply andb_prop in Hin as [H1 H2].
  apply N.leb_le in H1. apply N.leb_le in H2. apply N.eqb_eq in H3.
  auto.
Qed.

(** X21. The 12-hour clock: for an hour of the day (0..23) the hour shown
    lies in 1..12, "AM" is shown exactly before noon, and the hour shown
    with AM/PM determines the hour of the day; two times of day with the
    same text are the same hour and minute. *)
Theorem clock_text_is_faithful (h m h' m' : N) :
  (h < 24)%N -> (h' < 24)%N ->
  ((1 <= hours12 h)%N /\ (hours12 h <= 12)%N)
  /\ (ampm h = "AM"%string <-> (h < 12)%N)
  /\ h = (hours12 h mod 12 + (if String.eqb (ampm h) "PM" then 12 else 0))%N
  /\ (formatTime h m = formatTime h' m' -> h = h' /\ m = m').
Proof.
  intros Hh Hh'.
  destruct (clock_fields h Hh) as (H1 & H2 & H3).
  destruct (clock_fields h' Hh') as (_ & _ & H3').
  split; [auto|]. split; [|split; [exact H3|]].
  - unfold ampm. destruct (12 <=? h)%N eqn:E.
    + apply N.leb_le in E. split; [discriminate|lia].
    + apply N.leb_gt in E. split; [auto|reflexivity].
  - intros H. apply (f_equal String.list_ascii_of_string) in H.
    unfold formatTime in H. rewrite !list_ascii_app in H. simpl in H.
    apply split_first_sep in H.
    + destruct H as [Hhour H].
      apply split_first_sep in H.
      * destruct H as [Hmin Hampm].
        apply list_ascii_inj in Hhour. apply (inj pretty) in Hhour.
        apply list_ascii_inj in Hmin. apply pad_pretty_inj in Hmin.
        apply list_ascii_inj in Hampm.
        split; [|exact Hmin].
        rewrite H3, H3', Hhour, Hampm. reflexivity.
      * apply digits_exclude; [reflexivity|apply pad_digits].
      * apply digits_exclude; [reflexivity|apply pad_digits].
    + apply digits_exclude; [reflexivity|apply pretty_N_digits].
    + apply digits_exclude; [reflexivity|apply pretty_N_digits].
Qed.

Lemma clock_text_is_faithful_witness :
  formatTime 0 5 = "12:05 AM"%string
  /\ formatTime 12 30 = "12:30 PM"%string
  /\ formatTime 23 59 = "11:59 PM"%string
  /\ (formatTime 13 7 = formatTime 1 7 -> 13%N = 1%N /\ 7%N = 7%N).
Proof.
  split; [vm_compute; reflexivity|]. split; [vm_compute; reflexivity|].
  split; [vm_compute; reflexivity|].
  apply (clock_text_is_faithful 13 7 1 7); reflexivity.
Defined.

(** X22. The "Ends at" time, for a positive playback speed: it is never
    before now, it is now once the position has reached the duration, at
    speed 1 it is now plus the remaining seconds in milliseconds, and a
    higher speed never gives a later end. *)
Theorem end_time_bounds (now position duration speed : Q) :
  0 < speed ->
  now <= endTimeMs now position duration speed
  /\ (duration <= position -> endTimeMs now position duration speed == now)
  /\ (position <= duration ->
      endTimeMs now position duration 1 == now + (duration - position) * 1000)
  /\ (forall speed', speed <= speed' ->
        endTimeMs now position duration speed'
        <= endTimeMs now position duration speed).
Proof.
  intros Hs. unfold endTimeMs.
  set (r := Math_max 0 (duration - position)).
  assert (Hr : 0 <= r).
  { unfold r, Math_max. destruct (Qltb 0 (duration - position)) eqn:E.
    - apply Qltb_lt in E. lra.
    - lra. }
  assert (Hq : forall s, 0 < s -> 0 <= r / s /\ r / s * s == r).
  { intros s Hpos. split.
    - apply Qle_shift_div_l; [exact Hpos|lra].
    - field. lra. }
  split; [|split; [|split]].
  - destruct (Hq speed Hs) as [H _]. lra.
  - intros Hend.
    assert (Hr0 : r == 0).
    { unfold r, Math_max. destruct (Qltb 0 (duration - position)) eqn:E.
      - apply Qltb_lt in E. lra.
      - reflexivity. }
    rewrite Hr0. unfold Qdiv. lra.
  - intros Hbefore.
    assert (Hr1 : r == duration - position).
    { unfold r, Math_max. destruct (Qltb 0 (duration - position)) eqn:E.
      - reflexivity.
      - apply Qltb_ge in E. lra. }
    rewrite Hr1. unfold Qdiv. change (/ 1) with 1. lra.
  - intros speed' Hle.
    assert (Hs' : 0 < speed') by lra.
    destruct (Hq speed Hs) as [H1 H2]. destruct (Hq speed' Hs') as [H1' H2'].
    assert (Hcmp : r / speed' <= r / speed).
    { apply Qle_shift_div_r; [exact Hs'|].
      set (q := r / speed) in *. nra. }
    lra.
Qed.

Lemma end_time_bounds_witness :
  endTimeMs 1700000000000 600 1200 1
  == 1700000000000 + (1200 - 600) * 1000
  /\ endTimeMs 1700000000000 600 1200 2 <= endTimeMs 1700000000000 600 1200 1.
Proof.
  destruct (end_time_bounds 1700000000000 600 1200 1) as (_ & _ & H1 & H2).
  - reflexivity.
  - split.
    + apply H1. discriminate.
    + apply H2. discriminate.
Defined.

End Clock.

(** ** Stability of the resolution effect *)

Section Stability.
Import VideoPlayer.

Lemma manualFallback_after_set (c : Component) (m : SkipMarker)
    (a : option SkipMarker) :
  manualFallback c = SetActiveSkipMarker (Some m) ->
  manualFallback (setActiveSkipMarker a c) = SetActiveSkipMarker (Some m).
Proof.
  unfold manualFallback. simpl.
  repeat match goal with
         | |- context [if ?b then _ else _] => destruct b eqn:?
         end; simpl; try discriminate; auto.
Qed.

Lemma manualFallback_after_clear (c : Component) :
  manualFallback c = SetActiveSkipMarker None ->
  manualFallback (setActiveSkipMarker None c) = SetActiveSkipMarker None
  \/ manualFallback (setActiveSkipMarker None c) = NoUpdate.
Proof.
  unfold manualFallback. simpl.
  repeat match goal with
         | |- context [if ?b then _ else _] => destruct b eqn:?
         end; simpl; try discriminate; auto.
Qed.

(** X23. The resolution effect is stable: running it again on its own
    result, with the position, the duration, the settings and the markers
    unchanged, changes nothing.  (The effect does run again when it has
    changed the active marker's type.) *)
Theorem resolve_idempotent (c : Component) : resolve (resolve c) = resolve c.
Proof.
  unfold resolve at 2 3. destruct (resolveUpdate c) as [|[m|]] eqn:E.
  - simpl. unfold resolve. rewrite E. reflexivity.
  - assert (E' : resolveUpdate (setActiveSkipMarker (Some m) c)
                 = SetActiveSkipMarker (Some m)).
    { revert E. unfold resolveUpdate. simpl.
      destruct (Qeq_bool (duration c) 0); [discriminate|].
      destruct (if enabledCommunitySkip (skipSettings c)
                   && (0 <? length (communitySkipMarkers c))%nat
                then communityLoop (currentPosition c) (communitySkipMarkers c)
                else None); [auto|].
      apply manualFallback_after_set. }
    simpl. unfold resolve. rewrite E'. reflexivity.
  - assert (E' : resolveUpdate (setActiveSkipMarker None c)
                 = SetActiveSkipMarker None
                 \/ resolveUpdate (setActiveSkipMarker None c) = NoUpdate).
    { revert E. unfold resolveUpdate. simpl.
      destruct (Qeq_bool (duration c) 0); [auto|].
      destruct (if enabledCommunitySkip (skipSettings c)
                   && (0 <? length (communitySkipMarkers c))%nat
                then communityLoop (currentPosition c) (communitySkipMarkers c)
                else None); [discriminate|].
      apply manualFallback_after_clear. }
    simpl. unfold resolve. destruct E' as [-> | ->]; reflexivity.
Qed.

End Stability.
